(** * starred: a shallow embedding of [starred/starred.py]

    The program fetches the repositories a user starred, groups them by
    language, sorts every group, renders a markdown document and either
    prints it, writes it to a file or commits it to a repository.

    Python values are embedded as follows.
    - [str] is a sequence of Unicode code points, so it is a [list N];
      comparison of strings is lexicographic on the code points.
    - [int] is unbounded: [Z] for star counts, [nat] for counters and
      lengths.
    - [None]-able attributes are [option]s; truthiness tests ([x or d],
      [if x]) are written out.
    - a [dict] keeps insertion order and is iterated, so it is an
      association list with unique keys.
    - the effects of [starred] (files, the pickle store, [sys.stdout],
      [sys.stderr], the remote repository, the browser) are fields of a
      [World] record threaded through a state-and-exit monad, together
      with a trace of the effects in the order they happen. *)

From Stdlib Require Import List NArith ZArith String Ascii Bool Arith Lia.
From Stdlib Require Import Permutation Sorted DecimalString.
Import ListNotations.

Set Implicit Arguments.

(* ================================================================== *)
(** ** Python strings *)

Module PyStr.

Definition char := N.
Definition str := list char.

(** A literal of the source, given by its ASCII text. *)
Definition py (s : string) : str := map N_of_ascii (list_ascii_of_string s).
Arguments py s%_string.

Definition chr (a : ascii) : char := N_of_ascii a.
Arguments chr a%_char.

Fixpoint str_eqb (a b : str) : bool :=
  match a, b with
  | [], [] => true
  | x :: a', y :: b' => N.eqb x y && str_eqb a' b'
  | _, _ => false
  end.

(** [a <= b] on [str]: lexicographic on code points. *)
Fixpoint str_leb (a b : str) : bool :=
  match a, b with
  | [], _ => true
  | _ :: _, [] => false
  | x :: a', y :: b' =>
      if N.ltb x y then true
      else if N.eqb x y then str_leb a' b' else false
  end.

(** [bool(s)] for a string: non-empty. *)
Definition truthy (s : str) : bool :=
  match s with [] => false | _ :: _ => true end.

(** [str.isspace] on one code point (the white space table of CPython's
    unicode type). *)
Definition isspace (c : char) : bool :=
  ((9 <=? c) && (c <=? 13) || (28 <=? c) && (c <=? 32)
   || (c =? 133) || (c =? 160) || (c =? 5760)
   || (8192 <=? c) && (c <=? 8202)
   || (c =? 8232) || (c =? 8233) || (c =? 8239) || (c =? 8287)
   || (c =? 12288))%N.

Fixpoint lstrip (s : str) : str :=
  match s with
  | [] => []
  | c :: t => if isspace c then lstrip t else s
  end.

Definition rstrip (s : str) : str := rev (lstrip (rev s)).

(** [s.strip()] *)
Definition strip (s : str) : str := rstrip (lstrip s).

Fixpoint startswith (s prefix : str) {struct prefix} : bool :=
  match prefix, s with
  | [], _ => true
  | p :: prefix', c :: s' => N.eqb p c && startswith s' prefix'
  | _ :: _, [] => false
  end.

(** [s.replace(old, new)] for a non-empty [old]: the occurrences of
    [old] are found from the left and do not overlap.  [skip] counts the
    characters of a matched occurrence still to be dropped. *)
Fixpoint replace_from (old new : str) (skip : nat) (s : str) : str :=
  match s with
  | [] => []
  | c :: t =>
      match skip with
      | S k => replace_from old new k t
      | O =>
          if startswith s old
          then new ++ replace_from old new (pred (List.length old)) t
          else c :: replace_from old new 0 t
      end
  end.

Definition replace (s old new : str) : str := replace_from old new 0 s.

(** [sep.join(parts)] *)
Fixpoint join (sep : str) (parts : list str) : str :=
  match parts with
  | [] => []
  | [p] => p
  | p :: rest => p ++ sep ++ join sep rest
  end.

(** [s.split()]: the maximal runs of non-space characters.  [cur] is the
    run being read, reversed. *)
Fixpoint split_from (cur : str) (s : str) : list str :=
  match s with
  | [] => match cur with [] => [] | _ => [rev cur] end
  | c :: t =>
      if isspace c
      then match cur with
           | [] => split_from [] t
           | _ => rev cur :: split_from [] t
           end
      else split_from (c :: cur) t
  end.

Definition split (s : str) : list str := split_from [] s.

(** [str(n)] and ['{}'.format(n)] for an integer. *)
Definition str_of_nat (n : nat) : str :=
  py (NilEmpty.string_of_uint (Nat.to_uint n)).

End PyStr.
Import PyStr.

(* ================================================================== *)
(** ** Built-ins: [sorted] and insertion-ordered dictionaries *)

Section PySorted.
Variables (A K : Type).
Variable leb : K -> K -> bool.
Variable key : A -> K.

(** The comparison [sorted] uses between two keys: [<=], reversed when
    [reverse=True]. *)
Definition before (reverse : bool) (x y : A) : bool :=
  if reverse then leb (key y) (key x) else leb (key x) (key y).

(** [x] comes from the left of every element of [l] in the input, so it
    goes in front of the first element it may precede. *)
Fixpoint insert_stable (reverse : bool) (x : A) (l : list A) : list A :=
  match l with
  | [] => [x]
  | y :: l' =>
      if before reverse x y then x :: y :: l'
      else y :: insert_stable reverse x l'
  end.

(** [sorted(l, key=key, reverse=reverse)].  Python's sort is stable, and
    with [reverse=True] it sorts as if each comparison were reversed,
    still keeping the input order of equal keys.  The result of a stable
    sort is determined by the input, so a stable insertion sort stands
    for it. *)
Fixpoint sorted (reverse : bool) (l : list A) : list A :=
  match l with
  | [] => []
  | x :: l' => insert_stable reverse x (sorted reverse l')
  end.
End PySorted.

Definition Dict (V : Type) := list (str * V).

(** [if k not in d: d[k] = []] followed by [d[k].append(v)]. *)
Fixpoint dict_append (V : Type) (k : str) (v : V) (d : Dict (list V))
  : Dict (list V) :=
  match d with
  | [] => [(k, [v])]
  | (k', vs) :: d' =>
      if str_eqb k k' then (k', vs ++ [v]) :: d'
      else (k', vs) :: dict_append k v d'
  end.

(** [OrderedDict(sorted(d.items(), key=lambda l: l[0]))] *)
Definition sorted_items (V : Type) (d : Dict V) : Dict V :=
  sorted str_leb (@fst str V) false d.

(* ================================================================== *)
(** ** The fetched records and the aggregation (lines 54-62, 114-132,
       152-167) *)

(** What [starred] reads of one entry of [gh.starred_by(username)]. *)
Record Star := {
  name : str;
  html_url : str;
  description : option str;
  owner_login : str;
  stargazers_count : Z;
  language : option str
}.

(** The six-element list appended to [repo_dict[language]]. *)
Record Row := {
  r_name : str;          (* l[0] *)
  r_url : str;           (* l[1] *)
  r_description : str;   (* l[2] *)
  r_owner : str;         (* l[3] *)
  r_stars : Z;           (* l[4] *)
  r_order : nat          (* l[5] *)
}.

Definition html_escape_table : list (char * str) :=
  [ (chr ">", py "&gt;"); (chr "<", py "&lt;") ].

(** [html_escape_table.get(c, c)] *)
Fixpoint table_get (t : list (char * str)) (c : char) : str :=
  match t with
  | [] => [c]
  | (k, v) :: t' => if N.eqb k c then v else table_get t' c
  end.

(** ["".join(html_escape_table.get(c, c) for c in text)] *)
Definition html_escape (text : str) : str :=
  join [] (map (table_get html_escape_table) text).

Definition Others : str := py "Others".

(** [s.language or 'Others'] *)
Definition language_of (s : Star) : str :=
  match language s with
  | Some l => if truthy l then l else Others
  | None => Others
  end.

(** [html_escape(s.description).replace('\n', '') if s.description else '']
    followed by the [description.strip()] of line 124. *)
Definition description_of (s : Star) : str :=
  strip
    match description s with
    | Some d => if truthy d then replace (html_escape d) [10%N] [] else []
    | None => []
    end.

Definition row_of (s : Star) (star_order : nat) : Row :=
  {| r_name := name s; r_url := html_url s;
     r_description := description_of s; r_owner := owner_login s;
     r_stars := stargazers_count s; r_order := star_order |}.

Definition Snapshot := Dict (list (str * str)).

(** The loop of lines 119-129. *)
Fixpoint collect (stars : list Star) (star_order : nat)
    (repo_dict : Dict (list Row)) (new_dict : Snapshot)
  : Dict (list Row) * Snapshot :=
  match stars with
  | [] => (repo_dict, new_dict)
  | s :: rest =>
      let language := language_of s in
      collect rest (S star_order)
        (dict_append language (row_of s star_order) repo_dict)
        (dict_append language (name s, html_url s) new_dict)
  end.

Inductive SortMode := SortStars | SortDate | SortName.

(** The [sorted] call each branch of lines 154-167 applies to one group. *)
Definition sort_group (sort : SortMode) (g : list Row) : list Row :=
  match sort with
  | SortDate => sorted Nat.leb r_order false g
  | SortName => sorted str_leb r_name false g
  | SortStars => sorted Z.leb r_stars true g
  end.

(** Lines 152-167: every group is replaced by its sorted copy and [total]
    accumulates the group sizes. *)
Fixpoint sort_groups (sort : SortMode) (d : Dict (list Row)) (total : nat)
  : Dict (list Row) * nat :=
  match d with
  | [] => ([], total)
  | (language, g) :: d' =>
      let g' := sort_group sort g in
      let (d'', total') := sort_groups sort d' (total + List.length g') in
      ((language, g') :: d'', total')
  end.

(** The grouping of lines 114-132. *)
Definition grouped (stars : list Star) : Dict (list Row) * Snapshot :=
  let (repo_dict, new_dict) := collect stars 0 [] [] in
  (sorted_items repo_dict, sorted_items new_dict).

(** The aggregation as a whole: groups in language order, each sorted, and
    the total. *)
Definition aggregate (sort : SortMode) (stars : list Star)
  : Dict (list Row) * nat :=
  sort_groups sort (fst (grouped stars)) 0.

(* ================================================================== *)
(** ** The world [starred] acts on *)

(** What [sys.stdout] is bound to: the stream the process started with, or
    the [BytesIO] object [repo_file]. *)
Inductive Stream := Console | Buffer.

(** The target [click.echo(..., file=output_file)] writes to: the opened
    output file, or ([file=None]) whatever [sys.stdout] is at that time. *)
Inductive Sink := ToFile | ToStdout.

(** The repository [username/repository] on the host: its web address and
    its files by path. *)
Record Repo := {
  repo_url : str;
  repo_files : Dict str
}.

Inductive Event :=
| EvOpenW (path : str)                          (* open(output, "w") *)
| EvStderr (msg : str)                          (* click.secho(.., file=sys.stderr) *)
| EvRedirect                                    (* sys.stdout = repo_file *)
| EvPickleDump (d : Snapshot)                   (* pickle.dump(new_dict, file) *)
| EvEcho (sink : Sink) (msg : str)              (* click.echo(msg, file=output_file) *)
| EvCreateRepository (name descr : str)         (* gh.create_repository *)
| EvReadmeUpdate (message content : str)        (* readme.update *)
| EvCreateFile (path message content : str)     (* rep.create_file *)
| EvLaunch (url : str).                         (* click.launch *)

Record World := {
  out_file : option str;     (* the file at the [--output] path, if any *)
  pkl : option Snapshot;     (* starred-repo.pkl, if it is a file *)
  sys_stdout : Stream;
  console : str;             (* what the original stdout received *)
  repo_file : str;           (* the content of the BytesIO buffer *)
  stderr : list str;
  remote : option Repo;      (* None: the host has no such repository *)
  trace : list Event;        (* the effects so far, oldest first *)
  console_isatty : bool      (* the original stdout is a terminal *)
}.

Definition log (e : Event) (w : World) : World :=
  {| out_file := out_file w; pkl := pkl w; sys_stdout := sys_stdout w;
     console := console w; repo_file := repo_file w; stderr := stderr w;
     remote := remote w; trace := trace w ++ [e];
     console_isatty := console_isatty w |}.

Definition set_out_file (c : option str) (w : World) : World :=
  {| out_file := c; pkl := pkl w; sys_stdout := sys_stdout w;
     console := console w; repo_file := repo_file w; stderr := stderr w;
     remote := remote w; trace := trace w;
     console_isatty := console_isatty w |}.

Definition set_pkl (d : option Snapshot) (w : World) : World :=
  {| out_file := out_file w; pkl := d; sys_stdout := sys_stdout w;
     console := console w; repo_file := repo_file w; stderr := stderr w;
     remote := remote w; trace := trace w;
     console_isatty := console_isatty w |}.

Definition set_sys_stdout (s : Stream) (w : World) : World :=
  {| out_file := out_file w; pkl := pkl w; sys_stdout := s;
     console := console w; repo_file := repo_file w; stderr := stderr w;
     remote := remote w; trace := trace w;
     console_isatty := console_isatty w |}.

Definition set_console (c : str) (w : World) : World :=
  {| out_file := out_file w; pkl := pkl w; sys_stdout := sys_stdout w;
     console := c; repo_file := repo_file w; stderr := stderr w;
     remote := remote w; trace := trace w;
     console_isatty := console_isatty w |}.

Definition set_repo_file (c : str) (w : World) : World :=
  {| out_file := out_file w; pkl := pkl w; sys_stdout := sys_stdout w;
     console := console w; repo_file := c; stderr := stderr w;
     remote := remote w; trace := trace w;
     console_isatty := console_isatty w |}.

Definition set_stderr (l : list str) (w : World) : World :=
  {| out_file := out_file w; pkl := pkl w; sys_stdout := sys_stdout w;
     console := console w; repo_file := repo_file w; stderr := l;
     remote := remote w; trace := trace w;
     console_isatty := console_isatty w |}.

Definition set_remote (r : option Repo) (w : World) : World :=
  {| out_file := out_file w; pkl := pkl w; sys_stdout := sys_stdout w;
     console := console w; repo_file := repo_file w; stderr := stderr w;
     remote := r; trace := trace w;
     console_isatty := console_isatty w |}.

(** *** The monad: state, [return] out of [starred], exceptions *)

Inductive Exn := NotFoundError | UnprocessableEntity | ForbiddenError.

(** The three [return] statements of [starred]. *)
Inductive ReturnSite := NoToken | Forbidden | NoChange.

Inductive Result (A : Type) :=
| Ok (a : A)
| Returned (site : ReturnSite)
| Raised (e : Exn).
Arguments Ok {A} a.
Arguments Returned {A} site.
Arguments Raised {A} e.

Definition M (A : Type) := World -> Result A * World.

Definition ret (A : Type) (a : A) : M A := fun w => (Ok a, w).

Definition bind (A B : Type) (m : M A) (k : A -> M B) : M B :=
  fun w =>
    match m w with
    | (Ok a, w') => k a w'
    | (Returned site, w') => (Returned site, w')
    | (Raised e, w') => (Raised e, w')
    end.

Notation "x <- m ;; k" := (bind m (fun x => k))
  (at level 61, m at next level, right associativity).
Notation "m ;;; k" := (bind m (fun _ => k))
  (at level 61, right associativity).

Definition return_ (A : Type) (site : ReturnSite) : M A :=
  fun w => (Returned site, w).
Arguments return_ {A} site.

(** [raise e] *)
Definition raise (A : Type) (e : Exn) : M A := fun w => (Raised e, w).
Arguments raise {A} e.

Definition exn_eqb (a b : Exn) : bool :=
  match a, b with
  | NotFoundError, NotFoundError => true
  | UnprocessableEntity, UnprocessableEntity => true
  | ForbiddenError, ForbiddenError => true
  | _, _ => false
  end.

(** [try: m except e: h].  What [m] did before it raised stays done. *)
Definition try_except (A : Type) (m : M A) (e : Exn) (h : M A) : M A :=
  fun w =>
    match m w with
    | (Raised e', w') => if exn_eqb e e' then h w' else (Raised e', w')
    | r => r
    end.

Definition emit (e : Event) : M unit := fun w => (Ok tt, log e w).

(** *** Local files, streams *)

(** [open(output, "w")]: the file exists afterwards and is empty.  The
    directories lines 88-90 create for it are not part of the world. *)
Definition open_w (path : str) : M unit :=
  fun w => (Ok tt, log (EvOpenW path) (set_out_file (Some []) w)).

(** [click.secho(msg, fg='red', file=sys.stderr)] *)
Definition secho_err (msg : str) : M unit :=
  fun w => (Ok tt, log (EvStderr msg) (set_stderr (stderr w ++ [msg]) w)).

(** [repo_file = BytesIO(); sys.stdout = repo_file] *)
Definition redirect_stdout : M unit :=
  fun w => (Ok tt, log EvRedirect (set_sys_stdout Buffer (set_repo_file [] w))).

Definition nl : str := [10%N].

(** click's [strip_ansi]: [re.sub(r"\033\[[;?0-9]*[a-zA-Z]", "", value)].
    [ansi_tail s] is the length of the match of [[;?0-9]*[a-zA-Z]] at the
    start of [s], if there is one; the two classes are disjoint, so the
    greedy match is the only one. *)
Definition is_ansi_param (c : char) : bool :=
  ((c =? 59) || (c =? 63) || (48 <=? c) && (c <=? 57))%N.

Definition is_ascii_letter (c : char) : bool :=
  ((65 <=? c) && (c <=? 90) || (97 <=? c) && (c <=? 122))%N.

Fixpoint ansi_tail (s : str) : option nat :=
  match s with
  | [] => None
  | c :: t =>
      if is_ansi_param c then option_map S (ansi_tail t)
      else if is_ascii_letter c then Some 1
      else None
  end.

(** The length of the escape sequence [s] starts with, if any. *)
Definition ansi_length (s : str) : option nat :=
  match s with
  | 27%N :: 91%N :: t => option_map (fun n => 2 + n) (ansi_tail t)
  | _ => None
  end.

(** The matches are found from the left and removed; [skip] counts the
    characters of a match still to be dropped. *)
Fixpoint strip_ansi_from (skip : nat) (s : str) : str :=
  match s with
  | [] => []
  | c :: t =>
      match skip with
      | S k => strip_ansi_from k t
      | O =>
          match ansi_length s with
          | Some n => strip_ansi_from (pred n) t
          | None => c :: strip_ansi_from 0 t
          end
      end
  end.

Definition strip_ansi (value : str) : str := strip_ansi_from 0 value.

(** What [click.echo(msg, file=...)] writes: the message and a newline,
    with the ANSI escape sequences stripped unless the target is a
    terminal.  The file at the output path and the buffer are not
    terminals. *)
Definition echo_out (keep_ansi : bool) (msg : str) : str :=
  if keep_ansi then msg ++ nl else strip_ansi (msg ++ nl).

(** [click.echo(msg, file=output_file)]: the text goes to the file, or to
    what [sys.stdout] is bound to. *)
Definition echo (sink : Sink) (msg : str) : M unit :=
  fun w =>
    let w' :=
      match sink with
      | ToFile =>
          set_out_file
            (Some (match out_file w with Some c => c | None => [] end
                   ++ echo_out false msg)) w
      | ToStdout =>
          match sys_stdout w with
          | Console =>
              set_console (console w ++ echo_out (console_isatty w) msg) w
          | Buffer => set_repo_file (repo_file w ++ echo_out false msg) w
          end
      end in
    (Ok tt, log (EvEcho sink msg) w').

Fixpoint echo_all (sink : Sink) (msgs : list str) : M unit :=
  match msgs with
  | [] => ret tt
  | m :: rest => echo sink m ;;; echo_all sink rest
  end.

(** [repo_file.getvalue()] *)
Definition getvalue : M str := fun w => (Ok (repo_file w), w).

(** *** The snapshot store *)

Fixpoint list_eqb (A : Type) (eqb : A -> A -> bool) (a b : list A) : bool :=
  match a, b with
  | [], [] => true
  | x :: a', y :: b' => eqb x y && list_eqb eqb a' b'
  | _, _ => false
  end.

Definition pair_eqb (A B : Type) (ea : A -> A -> bool) (eb : B -> B -> bool)
    (p q : A * B) : bool :=
  ea (fst p) (fst q) && eb (snd p) (snd q).

(** [operator.eq(old_dict, new_dict)] on two ordered dictionaries of lists
    of [name, url] lists. *)
Definition snapshot_eqb : Snapshot -> Snapshot -> bool :=
  list_eqb (pair_eqb str_eqb (list_eqb (pair_eqb str_eqb str_eqb))).

(** [os.path.isfile(repo_pkl_path)] and, if so, [pickle.load]. *)
Definition pickle_load : M (option Snapshot) := fun w => (Ok (pkl w), w).

(** [pickle.dump(new_dict, file)] into the file opened with ["wb"]. *)
Definition pickle_dump (d : Snapshot) : M unit :=
  fun w => (Ok tt, log (EvPickleDump d) (set_pkl (Some d) w)).

(** *** The host *)

Fixpoint dict_get (V : Type) (k : str) (d : Dict V) : option V :=
  match d with
  | [] => None
  | (k', v) :: d' => if str_eqb k k' then Some v else dict_get k d'
  end.

Fixpoint dict_set (V : Type) (k : str) (v : V) (d : Dict V) : Dict V :=
  match d with
  | [] => [(k, v)]
  | (k', v') :: d' =>
      if str_eqb k k' then (k', v) :: d' else (k', v') :: dict_set k v d'
  end.

(** The host names a file with or without the leading slash. *)
Definition norm_path (p : str) : str :=
  match p with
  | 47%N :: t => t
  | _ => p
  end.

(** [gh.repository(username, repository)] *)
Definition gh_repository : M Repo :=
  fun w =>
    match remote w with
    | Some r => (Ok r, w)
    | None => (Raised NotFoundError, w)
    end.

(** [rep.file_contents(path)] *)
Definition file_contents (path : str) : M str :=
  fun w =>
    match remote w with
    | Some r =>
        match dict_get (norm_path path) (repo_files r) with
        | Some c => (Ok c, w)
        | None => (Raised NotFoundError, w)
        end
    | None => (Raised NotFoundError, w)
    end.

Definition README : str := py "README.md".

(** [rep.readme()] *)
Definition rep_readme : M str := file_contents README.

(** [readme.update(message, content)] *)
Definition readme_update (message content : str) : M unit :=
  fun w =>
    match remote w with
    | Some r =>
        (Ok tt,
         log (EvReadmeUpdate message content)
           (set_remote
              (Some {| repo_url := repo_url r;
                       repo_files := dict_set README content (repo_files r) |})
              w))
    | None => (Raised NotFoundError, w)
    end.

(** [rep.create_file(path, message, content)]: the host refuses to create
    a file that exists. *)
Definition create_file (path message content : str) : M unit :=
  fun w =>
    match remote w with
    | Some r =>
        match dict_get (norm_path path) (repo_files r) with
        | Some _ => (Raised UnprocessableEntity, w)
        | None =>
            (Ok tt,
             log (EvCreateFile path message content)
               (set_remote
                  (Some {| repo_url := repo_url r;
                           repo_files :=
                             repo_files r ++ [(norm_path path, content)] |})
                  w))
        end
    | None => (Raised NotFoundError, w)
    end.

(** [gh.create_repository(name, descr)]: the host refuses a name in use;
    [url] is the address the host gives the new, empty repository. *)
Definition create_repository (url name descr : str) : M Repo :=
  fun w =>
    match remote w with
    | Some _ => (Raised UnprocessableEntity, w)
    | None =>
        let r := {| repo_url := url; repo_files := [] |} in
        (Ok r, log (EvCreateRepository name descr) (set_remote (Some r) w))
    end.

(** [click.launch(url)] *)
Definition click_launch (url : str) : M unit := emit (EvLaunch url).

(* ================================================================== *)
(** ** The document (lines 24-52, 169-210) *)

Inductive OutputType := Table | ListOfLinks.

(** A cell handed to the table renderer: an [int] or a [str]. *)
Inductive Cell := CInt (z : Z) | CStr (s : str).

Definition badge_url : str :=
  py "https://cdn.rawgit.com/sindresorhus/awesome/d730"
  ++ py "5f38d29fed78fa85652e3a63e154dd8e8829/media/badge.svg".

Definition awesome_url : str := py "https://github.com/sindresorhus/awesome".

Definition github_url : str := py "https://github.com/1132719438/starred".

(** [count_badge.format(count=count, color=color)] *)
Definition count_badge (count color : str) : str :=
  py "https://img.shields.io/badge/Total-" ++ count ++ py "-" ++ color
  ++ py ".svg".

(** [date_badge.format(today=today, color=color)] *)
Definition date_badge (today color : str) : str :=
  py "https://img.shields.io/badge/Date-" ++ today ++ py "-" ++ color
  ++ py ".svg".

(** [desc.format(...)] *)
Definition desc (count_badge_url date_badge_url : str) : str :=
  py "# Awesome Stars [![Awesome](" ++ badge_url ++ py ")](" ++ awesome_url
  ++ py ")" ++ nl ++ nl
  ++ py "> A curated list of my GitHub stars!  Generated by [starred]("
  ++ github_url ++ py ")." ++ nl ++ nl
  ++ py "![Total](" ++ count_badge_url ++ py ")" ++ nl
  ++ py "![Date](" ++ date_badge_url ++ py ")" ++ nl ++ nl
  ++ py "## Contents" ++ nl.

(** [license_.format(username=username)] *)
Definition license_ (username : str) : str :=
  nl ++ py "## License" ++ nl ++ nl
  ++ py "[![CC0](http://mirrors.creativecommons.org/presskit/buttons/88x31/svg/cc-zero.svg)]"
  ++ py "(https://creativecommons.org/publicdomain/zero/1.0/)" ++ nl ++ nl
  ++ py "To the extent possible under law, [" ++ username
  ++ py "](https://github.com/" ++ username ++ py ")"
  ++ py " has waived all copyright and related or neighboring rights to this work."
  ++ nl.

(** ['## {} ({}) \n'.format(language.replace('#', '# #'), count)] *)
Definition heading (language : str) (count : nat) : str :=
  py "## " ++ replace language (py "#") (py "# #") ++ py " ("
  ++ str_of_nat count ++ py ") " ++ nl.

(** [u'- [{}]({}) - {}'.format] applied to the fields of [repo]: the first
    three are used. *)
Definition list_line (repo : Row) : str :=
  py "- [" ++ r_name repo ++ py "](" ++ r_url repo ++ py ") - "
  ++ r_description repo.

(** The comprehension of lines 186-191, [index] counting from [start]. *)
Fixpoint info_rows (start : nat) (g : list Row) : list (list Cell) :=
  match g with
  | [] => []
  | repo :: g' =>
      [ CInt (Z.of_nat (start + 1));
        CStr (py "[" ++ r_name repo ++ py "](" ++ r_url repo ++ py ")");
        CStr (r_description repo);
        CStr (r_owner repo);
        CInt (r_stars repo) ] :: info_rows (S start) g'
  end.

Definition table_header : list Cell :=
  [CStr []; CStr (py "Name"); CStr (py "Description"); CStr (py "Owner");
   CStr (py "Stars")].

(** [repo_dict[language]] for a key of the dictionary. *)
Definition dict_item (V : Type) (d : Dict (list V)) (k : str) : list V :=
  match dict_get k d with
  | Some v => v
  | None => []
  end.

Section Starred.

(** Two library functions the source calls and does not define:
    [str.lower] and the [table] text of terminaltables'
    [GithubFlavoredMarkdownTable]. *)
Variable lower : str -> str.
Variable GithubFlavoredMarkdownTable : list (list Cell) -> str.

(** [u'  - [{0}({2})](#{1}-{2})'.format(language,
    '-'.join(language.lower().split()), len(repo_dict[language]))] *)
Definition contents_line (language : str) (count : nat) : str :=
  py "  - [" ++ language ++ py "(" ++ str_of_nat count ++ py ")](#"
  ++ join (py "-") (split (lower language)) ++ py "-" ++ str_of_nat count
  ++ py ")".

(** What the loop body of lines 196-207 echoes for one language. *)
Definition section_msgs (type : OutputType) (repo_dict : Dict (list Row))
    (item : str * list (list Cell)) : list str :=
  let (language, info) := item in
  let count := List.length info in
  let info := table_header :: info in
  [heading language count]
  ++ match type with
     | Table => [GithubFlavoredMarkdownTable info]
     | ListOfLinks => map list_line (dict_item repo_dict language)
     end
  ++ [[]].

(** The messages lines 169-210 pass to [click.echo], in order. *)
Definition render (repo_dict : Dict (list Row)) (total : nat)
    (today username : str) (type : OutputType) : list str :=
  let count_badge_url := count_badge (str_of_nat total) (py "green") in
  let date_badge_url :=
    date_badge (replace today (py "-") (py "--")) (py "blue") in
  let info_dict :=
    sorted_items (map (fun lg => (fst lg, info_rows 0 (snd lg))) repo_dict) in
  [desc count_badge_url date_badge_url]
  ++ map (fun lg => contents_line (fst lg) (List.length (snd lg))) repo_dict
  ++ [[]]
  ++ List.concat (map (section_msgs type repo_dict) info_dict)
  ++ [license_ username].

(* ================================================================ *)
(** ** [starred] *)

Record Args := {
  username : str;
  token : option str;
  sort : SortMode;
  repository : str;
  message : option str;
  output : str;
  launch : bool;
  type : OutputType
}.

(** What the run reads from outside: the date, the answer of the host to
    the request for the stars (the text of a [ForbiddenError], or the
    stars), the address the host gives a repository it creates, and when
    the library sends the request: inside [gh.starred_by(username)], or,
    the iterator it returns being lazy (as that of github3 is), only when
    the loop of line 119 takes the first star. *)
Record Env := {
  today : str;
  starred_by : str + list Star;
  created_url : str;
  fetch_is_lazy : bool
}.

(** [bool(x)] for an optional string. *)
Definition opt_truthy (x : option str) : bool :=
  match x with Some s => truthy s | None => false end.

Definition archive_path (today : str) : str :=
  py "Archives/README-" ++ today ++ py ".md".

(** Lines 212-233. *)
Definition publish (a : Args) (e : Env) : M unit :=
  let message :=
    if opt_truthy (message a)
    then match message a with Some m => m | None => [] end
    else py "Add starred " ++ today e in
  rep <-
    try_except
      (rep <- gh_repository ;;
       try_except
         (_ <- file_contents (py "/" ++ archive_path (today e)) ;;
          secho_err (py "Error: already commit [/" ++ archive_path (today e)
                     ++ py "]"))
         NotFoundError
         (_ <- rep_readme ;;
          content <- getvalue ;;
          readme_update message content ;;;
          content <- getvalue ;;
          create_file (archive_path (today e))
            (py "Archive starred " ++ today e) content) ;;;
       ret rep)
      NotFoundError
      (rep <- create_repository (created_url e) (repository a)
                (py "A curated list of my GitHub stars!") ;;
       content <- getvalue ;;
       create_file README (py "Add starred " ++ today e) content ;;;
       content <- getvalue ;;
       create_file (archive_path (today e))
         (py "Archive starred " ++ today e) content ;;;
       ret rep) ;;
  if launch a then click_launch (repo_url rep) else ret tt.

(** Lines 134-150: [save_pkl], or the [return] of the no-change error. *)
Definition compare_and_save (repo_file : bool) (today : str)
    (new_dict : Snapshot) : M unit :=
  old <- pickle_load ;;
  save_pkl <-
    match old with
    | Some old_dict =>
        if snapshot_eqb old_dict new_dict
        then
          if repo_file
          then
            secho_err (py "Error: starred repositories not change in "
                       ++ today) ;;;
            return_ NoChange
          else ret false
        else ret true
    | None => ret true
    end ;;
  if save_pkl : bool then pickle_dump new_dict else ret tt.

Definition starred (a : Args) (e : Env) : M unit :=
  (* lines 86-93 *)
  output_file <-
    (if truthy (strip (output a))
     then open_w (strip (output a)) ;;; ret true
     else ret false) ;;
  (* lines 95-104 *)
  setup <-
    (if truthy (repository a)
     then
       if negb (opt_truthy (token a))
       then
         secho_err (py "Error: create repository need set --token") ;;;
         return_ NoToken
       else redirect_stdout ;;; ret (true, false)
     else ret (false, output_file)) ;;
  let repo_file : bool := fst setup in
  let sink := if snd setup then ToFile else ToStdout in
  (* lines 106-111 *)
  stars <-
    match starred_by e with
    | inl err =>
        if fetch_is_lazy e
        then raise ForbiddenError      (* line 119: outside the [try] *)
        else
          secho_err (py "Error: talk to Github failed: " ++ err) ;;;
          return_ Forbidden
    | inr stars => ret stars
    end ;;
  (* lines 114-132 *)
  let (repo_dict, new_dict) := grouped stars in
  (* lines 134-150 *)
  compare_and_save repo_file (today e) new_dict ;;;
  (* lines 152-167 *)
  let (repo_dict, total) := sort_groups (sort a) repo_dict 0 in
  (* lines 169-210 *)
  echo_all sink (render repo_dict total (today e) (username a) (type a)) ;;;
  (* lines 212-233 *)
  if repo_file then publish a e else ret tt.

End Starred.

(* ================================================================== *)
(** ** Definitions the statements below use *)

(** The rows of the fetched records in fetch order, the first one getting
    index [star_order]. *)
Fixpoint rows_from (stars : list Star) (star_order : nat) : list Row :=
  match stars with
  | [] => []
  | s :: rest => row_of s star_order :: rows_from rest (S star_order)
  end.

(** The escape of one character as the specification words it: only [<]
    and [>] are replaced. *)
Definition escape_lt_gt (c : char) : str :=
  if N.eqb c (chr "<") then py "&lt;"
  else if N.eqb c (chr ">") then py "&gt;"
  else [c].

(** The sanitization as the specification words it: escape [<] and [>],
    then drop the newline characters, then strip; nothing for an absent
    description. *)
Definition sanitize_spec (d : option str) : str :=
  match d with
  | Some text =>
      strip (filter (fun c => negb (N.eqb c 10)) (flat_map escape_lt_gt text))
  | None => []
  end.

(** A language name in which a space follows every [#], and nothing else
    is added. *)
Definition space_after_hash (language : str) : str :=
  flat_map (fun c => if N.eqb c (chr "#") then py "# " else [c]) language.

(** What [language.replace('#', '# #')] puts for one character. *)
Definition hash_escape (c : char) : str :=
  if N.eqb c (chr "#") then py "# #" else [c].

(** [a] is ranked before [b] by star count, or they have the same count
    and [a] was fetched first. *)
Definition stars_then_fetch (a b : Row) : Prop :=
  (r_stars b < r_stars a)%Z
  \/ (r_stars a = r_stars b /\ r_order a < r_order b).

Definition by_name (a b : Row) : Prop := str_leb (r_name a) (r_name b) = true.

Definition by_fetch (a b : Row) : Prop := r_order a <= r_order b.

(** The row [r] of group [k] is the row of a fetched record whose language
    key is [k]. *)
Definition placed (stars : list Star) (k : str) (r : Row) : Prop :=
  exists s, nth_error stars (r_order r) = Some s
            /\ r = row_of s (r_order r) /\ language_of s = k.

(** A group as the loop builds it: in fetch order, with indices below
    [bound]. *)
Definition fetch_ordered (bound : nat) (g : list Row) : Prop :=
  StronglySorted (fun a b => r_order a < r_order b) g
  /\ Forall (fun r => r_order r < bound) g.

Definition is_echo (e : Event) : bool :=
  match e with EvEcho _ _ => true | _ => false end.

(** The effects that change the repository on the host. *)
Definition is_remote_write (e : Event) : bool :=
  match e with
  | EvCreateRepository _ _ | EvReadmeUpdate _ _ | EvCreateFile _ _ _ => true
  | _ => false
  end.

Definition is_launch (e : Event) : bool :=
  match e with EvLaunch _ => true | _ => false end.

Definition is_pickle_dump (e : Event) : bool :=
  match e with EvPickleDump _ => true | _ => false end.

(** The world once lines 86-104 are done, in a run that gets past them:
    the output file, if one is named, is opened, and in publish mode
    [sys.stdout] is the new buffer. *)
Definition after_setup (a : Args) (w : World) : World :=
  let w1 :=
    if truthy (strip (output a))
    then log (EvOpenW (strip (output a))) (set_out_file (Some []) w)
    else w in
  if truthy (repository a)
  then log EvRedirect (set_sys_stdout Buffer (set_repo_file [] w1))
  else w1.

(** The effects of lines 86-104 in such a run. *)
Definition setup_events (a : Args) : list Event :=
  (if truthy (strip (output a)) then [EvOpenW (strip (output a))] else [])
  ++ (if truthy (repository a) then [EvRedirect] else []).

(** [w'] comes after [w] with the same snapshot store and the same
    [sys.stdout]. *)
Definition kept (w w' : World) : Prop :=
  pkl w' = pkl w /\ sys_stdout w' = sys_stdout w
  /\ exists evs, trace w' = trace w ++ evs.

(** [w'] comes after [w] with the same [sys.stdout]. *)
Definition same_stdout (w w' : World) : Prop := sys_stdout w' = sys_stdout w.

(** Whatever [m] does and however it ends, it takes a world to one that is
    [P]-related to it. *)
Definition keeps (P : World -> World -> Prop) (A : Type) (m : M A) : Prop :=
  forall w, P w (snd (m w)).

(** Where [click.echo] writes in such a run. *)
Definition sink_of (a : Args) : Sink :=
  if truthy (repository a) then ToStdout
  else if truthy (strip (output a)) then ToFile else ToStdout.

(** The run has a token when it is asked to publish. *)
Definition token_ok (a : Args) : Prop :=
  truthy (repository a) = true -> opt_truthy (token a) = true.

Definition no_change_msg (e : Env) : str :=
  py "Error: starred repositories not change in " ++ today e.

Definition duplicate_msg (e : Env) : str :=
  py "Error: already commit [/" ++ archive_path (today e) ++ py "]".

(** The events of a run that are neither output of the document nor a
    change on the host, a launch or a write of the snapshot store. *)
Definition quiet (ev : Event) : bool :=
  negb (is_echo ev || is_remote_write ev || is_launch ev || is_pickle_dump ev).

(** Stand-ins for the two library functions, for closed examples: lower
    case of the ASCII letters, and a table text that lists nothing. *)
Definition ascii_lower (s : str) : str :=
  map (fun c => if ((65 <=? c) && (c <=? 90))%N then (c + 32)%N else c) s.

Definition plain_table (rows : list (list Cell)) : str :=
  py "| rows: " ++ str_of_nat (List.length rows) ++ py " |".

Definition mkStar (n : string) (l : option str) (c : Z) : Star :=
  {| name := py n; html_url := py "https://github.com/o/" ++ py n;
     description := None; owner_login := py "o"; stargazers_count := c;
     language := l |}.
Arguments mkStar n%_string l c%_Z.

(** A small run, for the closed examples. *)
Definition sample_stars : list Star :=
  [ mkStar "b" (Some (py "Go")) 20; mkStar "a" (Some (py "C#")) 10;
    mkStar "c" None 5 ].

Definition sample_today : str := py "2020-01-02".

Definition sample_env : Env :=
  {| today := sample_today; starred_by := inr sample_stars;
     created_url := py "https://github.com/u/stars";
     fetch_is_lazy := false |}.

Definition forbidden_env : Env :=
  {| today := sample_today; starred_by := inl (py "403 Bad credentials");
     created_url := py "https://github.com/u/stars";
     fetch_is_lazy := false |}.

(** The same refusal with a lazy iterator, as with github3. *)
Definition lazy_forbidden_env : Env :=
  {| today := sample_today; starred_by := inl (py "403 Forbidden");
     created_url := py "https://github.com/u/stars";
     fetch_is_lazy := true |}.

(** [starred --username u --output README.md] *)
Definition local_args : Args :=
  {| username := py "u"; token := None; sort := SortDate; repository := [];
     message := None; output := py "README.md"; launch := false;
     type := ListOfLinks |}.

(** [starred --username u --token t --repository stars --launch] *)
Definition publish_args : Args :=
  {| username := py "u"; token := Some (py "t"); sort := SortStars;
     repository := py "stars"; message := None; output := [];
     launch := true; type := Table |}.

(** No snapshot yet, no repository on the host, an older document in
    [README.md]. *)
Definition first_world : World :=
  {| out_file := Some (py "# My stars"); pkl := None; sys_stdout := Console;
     console := []; repo_file := []; stderr := []; remote := None;
     trace := []; console_isatty := true |}.

(** The repository of an earlier run of the same day. *)
Definition published_repo : Repo :=
  {| repo_url := py "https://github.com/u/stars";
     repo_files := [ (README, py "# Awesome Stars");
                     (archive_path sample_today, py "# Awesome Stars") ] |}.

(** An older snapshot in the store, today's archive on the host. *)
Definition archived_world : World :=
  {| out_file := None; pkl := Some []; sys_stdout := Console;
     console := []; repo_file := []; stderr := [];
     remote := Some published_repo; trace := []; console_isatty := true |}.

(** The snapshot of [sample_stars] in the store. *)
Definition unchanged_world : World :=
  {| out_file := Some (py "# My stars");
     pkl := Some (snd (grouped sample_stars)); sys_stdout := Console;
     console := []; repo_file := []; stderr := [];
     remote := Some published_repo; trace := []; console_isatty := true |}.

(** A repository without readme and without today's archive: the update
    of the readme raises, the run tries to create the repository, and the
    host refuses. *)
Definition bare_world : World :=
  {| out_file := None; pkl := None; sys_stdout := Console; console := [];
     repo_file := []; stderr := [];
     remote := Some {| repo_url := py "https://github.com/u/stars";
                       repo_files := [] |};
     trace := []; console_isatty := true |}.

(** The [name, url] list the loop appends to [new_dict] for the record of
    a row. *)
Definition name_url (r : Row) : str * str := (r_name r, r_url r).

(** A group of [repo_dict] reduced to what [new_dict] keeps of it. *)
Definition reduced (lg : str * list Row) : str * list (str * str) :=
  (fst lg, map name_url (snd lg)).

(** What the snapshot reads of a record. *)
Definition identity_of (s : Star) : str * (str * str) :=
  (language_of s, (name s, html_url s)).

(** [a] is before [b] by name, and was fetched first if the names are the
    same. *)
Definition name_then_fetch (a b : Row) : Prop :=
  str_leb (r_name a) (r_name b) = true
  /\ (r_name a = r_name b -> r_order a < r_order b).

(** Two keys in strictly ascending order. *)
Definition str_lt (a b : str) : Prop := str_leb a b = true /\ a <> b.

Definition not_angle (c : char) : bool :=
  negb (N.eqb c (chr "<") || N.eqb c (chr ">")).

(** A character that may stand in a one-line table cell. *)
Definition cell_safe (c : char) : Prop :=
  c <> chr "<" /\ c <> chr ">" /\ c <> 10%N.

(** The one row of the table for the record [repo] at position [index]
    (from 0) of its group. *)
Definition info_row (index : nat) (repo : Row) : list Cell :=
  [ CInt (Z.of_nat (index + 1));
    CStr (py "[" ++ r_name repo ++ py "](" ++ r_url repo ++ py ")");
    CStr (r_description repo);
    CStr (r_owner repo);
    CInt (r_stars repo) ].

(** The messages of a document as one text, every message followed by a
    newline. *)
Definition document_text (msgs : list str) : str :=
  List.concat (map (fun m => m ++ nl) msgs).

(** The text a sequence of [click.echo] calls leaves in its target, which
    keeps the ANSI escape sequences or not. *)
Definition echoed_text (keep_ansi : bool) (msgs : list str) : str :=
  List.concat (map (echo_out keep_ansi) msgs).

(** A text UTF-8 can encode: Unicode code points that are not
    surrogates.  The output file is opened with [encoding='utf-8'], and
    click encodes what goes to the buffer in UTF-8. *)
Definition utf8_text (s : str) : bool :=
  forallb (fun c => (c <? 55296) || (57343 <? c) && (c <? 1114112))%N s.

(** A text of ASCII characters, which every encoding of a console can
    write. *)
Definition ascii_text (s : str) : bool := forallb (fun c => (c <? 128)%N) s.

(** A text without the escape character. *)
Definition no_escape (s : str) : Prop := Forall (fun c => c <> 27%N) s.

(** [save_pkl] as lines 135-142 compute it from the store. *)
Definition store_differs (w : World) (new_dict : Snapshot) : bool :=
  match pkl w with
  | Some old_dict => negb (snapshot_eqb old_dict new_dict)
  | None => true
  end.

(** The world once lines 86-150 are done, in a run that gets past them. *)
Definition after_compare (a : Args) (w : World) (new_dict : Snapshot) : World :=
  if store_differs w new_dict
  then log (EvPickleDump new_dict) (set_pkl (Some new_dict) (after_setup a w))
  else after_setup a w.

(** [w'] comes after [w] with the same console text, output file and
    buffer. *)
Definition same_local (w w' : World) : Prop :=
  console w' = console w /\ out_file w' = out_file w
  /\ repo_file w' = repo_file w.

(** The events that act on the host, open the browser or rebind
    [sys.stdout]. *)
Definition leaves_machine (ev : Event) : bool :=
  is_remote_write ev || is_launch ev
  || match ev with EvRedirect => true | _ => false end.

(** The commit message of the readme update (lines 213-214). *)
Definition commit_message (a : Args) (e : Env) : str :=
  if opt_truthy (message a)
  then match message a with Some m => m | None => [] end
  else py "Add starred " ++ today e.

(** A repository with a readme, a licence file and no archive of the
    sample day. *)
Definition yesterday_repo : Repo :=
  {| repo_url := py "https://github.com/u/stars";
     repo_files := [ (py "LICENSE", py "CC0"); (README, py "# Awesome Stars");
                     (py "Archives/README-2020-01-01.md", py "# Awesome Stars") ] |}.

Definition yesterday_world : World :=
  {| out_file := None; pkl := Some []; sys_stdout := Console;
     console := py "$ "; repo_file := []; stderr := [];
     remote := Some yesterday_repo; trace := []; console_isatty := true |}.

(** [starred --username u --repository stars]: no token. *)
Definition tokenless_args : Args :=
  {| username := py "u"; token := None; sort := SortDate;
     repository := py "stars"; message := None; output := py "README.md";
     launch := true; type := Table |}.

(** [starred --username u]: the document goes to the console. *)
Definition console_args : Args :=
  {| username := py "u"; token := None; sort := SortName; repository := [];
     message := None; output := []; launch := false; type := Table |}.

(** The anchor of a contents line:
    ['-'.join(language.lower().split())]. *)
Definition anchor (lower : str -> str) (language : str) : str :=
  join (py "-") (split (lower language)).

(** The messages of the section of one group, read off the group itself. *)
Definition section_of (table : list (list Cell) -> str) (type : OutputType)
    (lg : str * list Row) : list str :=
  [heading (fst lg) (List.length (snd lg))]
  ++ match type with
     | Table => [table (table_header :: info_rows 0 (snd lg))]
     | ListOfLinks => map list_line (snd lg)
     end
  ++ [[]].

(* ================================================================== *)
(** ** Strings *)

Lemma str_eqb_eq (a b : str) : str_eqb a b = true <-> a = b.
Proof.
  revert b; induction a as [|x a IH]; intros [|y b]; simpl;
    try (split; (reflexivity || discriminate)).
  rewrite andb_true_iff, N.eqb_eq, IH. split.
  - intros [-> ->]; reflexivity.
  - intros H; inversion H; auto.
Qed.

Lemma str_eqb_refl (a : str) : str_eqb a a = true.
Proof. apply str_eqb_eq; reflexivity. Qed.

Lemma str_leb_total (a b : str) : str_leb a b = false -> str_leb b a = true.
Proof.
  revert b; induction a as [|x a IH]; intros [|y b]; simpl; try easy.
  destruct (N.ltb_spec x y); [discriminate|].
  destruct (N.eqb_spec x y) as [->|Hne].
  - rewrite N.ltb_irrefl, N.eqb_refl. apply IH.
  - intros _. destruct (N.ltb_spec y x); [reflexivity | lia].
Qed.

Lemma str_leb_trans (a b c : str) :
  str_leb a b = true -> str_leb b c = true -> str_leb a c = true.
Proof.
  revert b c; induction a as [|x a IH]; intros [|y b] [|z c]; simpl; try easy.
  destruct (N.ltb_spec x y) as [Hxy|Hxy].
  - intros _. destruct (N.ltb_spec y z) as [Hyz|Hyz].
    + intros _. destruct (N.ltb_spec x z); [reflexivity | lia].
    + destruct (N.eqb_spec y z) as [->|]; [|discriminate].
      intros _. destruct (N.ltb_spec x z); [reflexivity | lia].
  - destruct (N.eqb_spec x y) as [->|]; [|discriminate].
    intros Hab. destruct (N.ltb_spec y z); [reflexivity|].
    destruct (N.eqb_spec y z); [|discriminate].
    apply IH; assumption.
Qed.

(** Replacing a one-character pattern works character by character. *)
Lemma replace_char (c : char) (new s : str) :
  replace s [c] new = flat_map (fun x => if N.eqb c x then new else [x]) s.
Proof.
  unfold replace. induction s as [|x s IH]; [reflexivity|].
  simpl. destruct (N.eqb c x); simpl; rewrite IH; reflexivity.
Qed.

Lemma join_empty (parts : list str) : join [] parts = List.concat parts.
Proof.
  induction parts as [|p rest IH]; [reflexivity|].
  simpl. destruct rest as [|q rest'].
  - simpl. rewrite app_nil_r. reflexivity.
  - rewrite IH. reflexivity.
Qed.

Lemma table_get_escape (c : char) :
  table_get html_escape_table c = escape_lt_gt c.
Proof.
  unfold escape_lt_gt, html_escape_table, table_get.
  rewrite (N.eqb_sym c (chr "<")), (N.eqb_sym c (chr ">")).
  destruct (N.eqb_spec (chr ">") c) as [<-|]; [reflexivity|].
  reflexivity.
Qed.

Lemma html_escape_flat_map (text : str) :
  html_escape text = flat_map escape_lt_gt text.
Proof.
  unfold html_escape. rewrite join_empty, flat_map_concat_map.
  f_equal. apply map_ext, table_get_escape.
Qed.

Lemma drop_newlines (s : str) :
  replace s [10%N] [] = filter (fun c => negb (N.eqb c 10)) s.
Proof.
  rewrite replace_char. induction s as [|x s IH]; [reflexivity|].
  cbn [flat_map filter]. rewrite IH, (N.eqb_sym 10 x).
  destruct (N.eqb x 10); reflexivity.
Qed.

(** C4: the description stored in a row is the description of the record
    with only [<] and [>] escaped (to [&lt;] and [&gt;]; every other
    character is kept as it is), then the newline characters removed, then
    leading and trailing white space stripped; an absent description gives
    the empty string, and ["a<b>\nc"] gives ["a&lt;b&gt;c"]. *)
Theorem description_sanitization :
  (forall s n, r_description (row_of s n) = sanitize_spec (description s))
  /\ (forall text, html_escape text = flat_map escape_lt_gt text)
  /\ (forall s n,
        r_description
          (row_of {| name := name s; html_url := html_url s;
                     description := None; owner_login := owner_login s;
                     stargazers_count := stargazers_count s;
                     language := language s |} n) = [])
  /\ sanitize_spec (Some (py "a<b>" ++ [10%N] ++ py "c")) = py "a&lt;b&gt;c"
  /\ r_description
       (row_of {| name := py "n"; html_url := py "u";
                  description := Some (py "a<b>" ++ [10%N] ++ py "c");
                  owner_login := py "o"; stargazers_count := 0;
                  language := None |} 0) = py "a&lt;b&gt;c".
Proof.
  split; [|split; [|split; [|split]]].
  - intros s n. simpl. unfold description_of, sanitize_spec.
    destruct (description s) as [d|]; [|reflexivity].
    destruct d as [|c d]; [reflexivity|].
    cbn [truthy]. rewrite drop_newlines, html_escape_flat_map. reflexivity.
  - apply html_escape_flat_map.
  - intros s n. reflexivity.
  - vm_compute. reflexivity.
  - vm_compute. reflexivity.
Qed.

(** The heading with the replacement written out character by character. *)
Lemma heading_flat_map (language : str) (count : nat) :
  heading language count
  = py "## " ++ flat_map hash_escape language ++ py " ("
    ++ str_of_nat count ++ py ") " ++ nl.
Proof.
  unfold heading.
  change (py "#") with [chr "#"]. rewrite replace_char.
  do 2 f_equal. apply flat_map_ext. intros c. unfold hash_escape.
  rewrite N.eqb_sym. reflexivity.
Qed.

(** C7, as the claim words it, fails: in the heading for ["C#"] the name
    is not ["C# "] (a space put after the [#]) but ["C# #"]. *)
Lemma heading_not_space_only :
  heading (py "C#") 1
  <> py "## " ++ space_after_hash (py "C#") ++ py " (" ++ str_of_nat 1
     ++ py ") " ++ nl.
Proof. vm_compute. discriminate. Qed.

(* ================================================================== *)
(** ** [sorted] *)

Section SortedFacts.
Variables (A K : Type).
Variable leb : K -> K -> bool.
Variable key : A -> K.
Variable reverse : bool.

Lemma insert_stable_perm (x : A) (l : list A) :
  Permutation (insert_stable leb key reverse x l) (x :: l).
Proof.
  induction l as [|y l IH]; simpl; [reflexivity|].
  destruct (before leb key reverse x y); [reflexivity|].
  rewrite IH. apply perm_swap.
Qed.

Lemma sorted_perm (l : list A) : Permutation (sorted leb key reverse l) l.
Proof.
  induction l as [|x l IH]; simpl; [reflexivity|].
  rewrite insert_stable_perm, IH. reflexivity.
Qed.

Lemma sorted_length (l : list A) :
  List.length (sorted leb key reverse l) = List.length l.
Proof. apply Permutation_length, sorted_perm. Qed.

Lemma sorted_In (x : A) (l : list A) :
  In x (sorted leb key reverse l) <-> In x l.
Proof.
  split; apply Permutation_in; [|symmetry]; apply sorted_perm.
Qed.

Lemma sorted_Forall (P : A -> Prop) (l : list A) :
  Forall P l -> Forall P (sorted leb key reverse l).
Proof.
  intros H. apply (Permutation_Forall (Permutation_sym (sorted_perm l)) H).
Qed.

Hypothesis leb_total : forall a b, leb a b = false -> leb b a = true.
Hypothesis leb_trans :
  forall a b c, leb a b = true -> leb b c = true -> leb a c = true.

Let R (x y : A) : Prop := before leb key reverse x y = true.

Lemma before_total (x y : A) :
  before leb key reverse x y = false -> R y x.
Proof. unfold R, before. destruct reverse; apply leb_total. Qed.

Lemma before_trans (x y z : A) : R x y -> R y z -> R x z.
Proof.
  unfold R, before. destruct reverse; intros H1 H2.
  - apply (leb_trans H2 H1).
  - apply (leb_trans H1 H2).
Qed.

Lemma insert_stable_sorted (x : A) (l : list A) :
  StronglySorted R l -> StronglySorted R (insert_stable leb key reverse x l).
Proof.
  induction 1 as [|y l Hl IH Hy]; simpl.
  - repeat constructor.
  - destruct (before leb key reverse x y) eqn:E.
    + constructor; [constructor; assumption|].
      constructor; [exact E|].
      eapply Forall_impl; [|exact Hy].
      intros z Hz. apply (before_trans E Hz).
    + constructor; [exact IH|].
      apply (Permutation_Forall (Permutation_sym (insert_stable_perm x l))).
      constructor; [apply before_total, E | exact Hy].
Qed.

(** The result of [sorted] is in the order of the comparison it uses. *)
Lemma sorted_StronglySorted (l : list A) :
  StronglySorted R (sorted leb key reverse l).
Proof.
  induction l as [|x l IH]; simpl; [constructor|].
  apply insert_stable_sorted, IH.
Qed.
End SortedFacts.

Lemma StronglySorted_snoc (A : Type) (R : A -> A -> Prop) (l : list A) (x : A) :
  StronglySorted R l -> Forall (fun y => R y x) l -> StronglySorted R (l ++ [x]).
Proof.
  induction 1 as [|y l Hl IH Hy]; intros Hx; simpl.
  - repeat constructor.
  - inversion Hx; subst. constructor; [apply IH; assumption|].
    apply Forall_app; split; [assumption|]. constructor; [assumption|constructor].
Qed.

(** Descending by star count is stable: a group in fetch order comes out
    ordered by star count, then by fetch index. *)
Lemma insert_stars_fetch (x : Row) (l : list Row) :
  StronglySorted stars_then_fetch l ->
  Forall (fun y => r_order x < r_order y) l ->
  StronglySorted stars_then_fetch (insert_stable Z.leb r_stars true x l).
Proof.
  induction 1 as [|y l Hl IH Hy]; intros Hx; simpl.
  - repeat constructor.
  - inversion Hx as [|? ? Hxy Hxl]; subst.
    unfold before. destruct (Z.leb_spec (r_stars y) (r_stars x)) as [Hle|Hlt].
    + constructor; [constructor; assumption|].
      assert (Hxy' : stars_then_fetch x y) by (unfold stars_then_fetch; lia).
      constructor; [exact Hxy'|].
      rewrite Forall_forall in *. intros z Hz.
      specialize (Hy z Hz). specialize (Hxl z Hz).
      unfold stars_then_fetch in *. lia.
    + constructor; [apply IH; assumption|].
      apply (Permutation_Forall
               (Permutation_sym (insert_stable_perm Z.leb r_stars true x l))).
      constructor; [left; exact Hlt | exact Hy].
Qed.

Lemma sorted_stars_fetch (l : list Row) :
  StronglySorted (fun a b => r_order a < r_order b) l ->
  StronglySorted stars_then_fetch (sorted Z.leb r_stars true l).
Proof.
  induction 1 as [|x l Hl IH Hx]; simpl; [constructor|].
  apply insert_stars_fetch; [exact IH|].
  apply sorted_Forall, Hx.
Qed.

Lemma sort_group_perm (sort : SortMode) (g : list Row) :
  Permutation (sort_group sort g) g.
Proof. destruct sort; apply sorted_perm. Qed.

Lemma sorted_items_perm (V : Type) (d : Dict V) :
  Permutation (sorted_items d) d.
Proof. apply sorted_perm. Qed.

Lemma sort_groups_fst (sort : SortMode) (d : Dict (list Row)) (total : nat) :
  fst (sort_groups sort d total)
  = map (fun lg => (fst lg, sort_group sort (snd lg))) d.
Proof.
  revert total; induction d as [|[k g] d IH]; intros total; simpl; [reflexivity|].
  specialize (IH (total + List.length (sort_group sort g))).
  destruct (sort_groups sort d (total + List.length (sort_group sort g))).
  simpl in *. rewrite IH. reflexivity.
Qed.

Lemma sort_groups_snd (sort : SortMode) (d : Dict (list Row)) (total : nat) :
  snd (sort_groups sort d total)
  = total + List.length (List.concat (map snd d)).
Proof.
  revert total; induction d as [|[k g] d IH]; intros total; simpl; [lia|].
  specialize (IH (total + List.length (sort_group sort g))).
  destruct (sort_groups sort d (total + List.length (sort_group sort g))).
  simpl in *. rewrite IH, length_app.
  rewrite (Permutation_length (sort_group_perm sort g)). lia.
Qed.

(* ================================================================== *)
(** ** Grouping *)

Lemma Permutation_concat_groups (A : Type) (l l' : list (list A)) :
  Permutation l l' -> Permutation (List.concat l) (List.concat l').
Proof.
  induction 1; simpl.
  - reflexivity.
  - apply Permutation_app_head; assumption.
  - rewrite !app_assoc. apply Permutation_app_tail, Permutation_app_comm.
  - etransitivity; eassumption.
Qed.

Section DictAppend.
Variable V : Type.

Lemma dict_append_keys (k k' : str) (v : V) (d : Dict (list V)) :
  In k' (map fst (dict_append k v d)) <-> k' = k \/ In k' (map fst d).
Proof.
  induction d as [|[k0 vs] d IH]; simpl.
  - intuition.
  - destruct (str_eqb k k0) eqn:E; simpl.
    + apply str_eqb_eq in E; subst. intuition.
    + rewrite IH. intuition.
Qed.

Lemma dict_append_NoDup (k : str) (v : V) (d : Dict (list V)) :
  NoDup (map fst d) -> NoDup (map fst (dict_append k v d)).
Proof.
  induction d as [|[k0 vs] d IH]; simpl; intros H.
  - repeat constructor. intros [].
  - inversion H; subst. destruct (str_eqb k k0) eqn:E; simpl.
    + constructor; assumption.
    + constructor; [|apply IH; assumption].
      rewrite dict_append_keys. intros [->|Hin]; [|contradiction].
      rewrite str_eqb_refl in E. discriminate.
Qed.

Lemma dict_append_concat (k : str) (v : V) (d : Dict (list V)) :
  Permutation (List.concat (map snd (dict_append k v d)))
              (List.concat (map snd d) ++ [v]).
Proof.
  induction d as [|[k0 vs] d IH]; simpl; [reflexivity|].
  destruct (str_eqb k k0); simpl.
  - rewrite <- !app_assoc. apply Permutation_app_head, Permutation_app_comm.
  - rewrite IH, app_assoc. reflexivity.
Qed.

(** From a property [G0] of the groups before to a property [G] of the
    groups after [dict_append]. *)
Lemma dict_append_groups (G0 G : str -> list V -> Prop) (k : str) (v : V)
    (d : Dict (list V)) :
  G k [v] ->
  (forall vs, G0 k vs -> G k (vs ++ [v])) ->
  (forall k' vs, G0 k' vs -> G k' vs) ->
  Forall (fun lg => G0 (fst lg) (snd lg)) d ->
  Forall (fun lg => G (fst lg) (snd lg)) (dict_append k v d).
Proof.
  intros Hnew Happ Hkeep. induction 1 as [|[k0 vs] d Hk Hd IH]; simpl.
  - repeat constructor. exact Hnew.
  - destruct (str_eqb k k0) eqn:E.
    + apply str_eqb_eq in E; subst. constructor.
      * apply Happ, Hk.
      * eapply Forall_impl; [|exact Hd]. intros lg. apply Hkeep.
    + constructor; [apply Hkeep, Hk | exact IH].
Qed.
End DictAppend.

Lemma collect_concat (stars : list Star) (n : nat) (d : Dict (list Row))
    (nd : Snapshot) :
  Permutation (List.concat (map snd (fst (collect stars n d nd))))
              (List.concat (map snd d) ++ rows_from stars n).
Proof.
  revert n d nd; induction stars as [|s rest IH]; intros n d nd; simpl.
  - rewrite app_nil_r. reflexivity.
  - rewrite IH, dict_append_concat, <- app_assoc. reflexivity.
Qed.

Lemma collect_NoDup (stars : list Star) (n : nat) (d : Dict (list Row))
    (nd : Snapshot) :
  NoDup (map fst d) -> NoDup (map fst (fst (collect stars n d nd))).
Proof.
  revert n d nd; induction stars as [|s rest IH]; intros n d nd H; simpl.
  - exact H.
  - apply IH, dict_append_NoDup, H.
Qed.

Lemma collect_fetch_ordered (stars : list Star) (n : nat)
    (d : Dict (list Row)) (nd : Snapshot) :
  Forall (fun lg => fetch_ordered n (snd lg)) d ->
  Forall (fun lg => fetch_ordered (n + List.length stars) (snd lg))
         (fst (collect stars n d nd)).
Proof.
  revert n d nd; induction stars as [|s rest IH]; intros n d nd H; simpl.
  - rewrite Nat.add_0_r. exact H.
  - replace (n + S (List.length rest)) with (S n + List.length rest) by lia.
    apply IH.
    apply (dict_append_groups (fun _ g => fetch_ordered n g)
             (fun _ g => fetch_ordered (S n) g)).
    + split; repeat constructor.
    + intros vs [Hs Hb]. split.
      * apply StronglySorted_snoc; [exact Hs|].
        eapply Forall_impl; [|exact Hb]. simpl. intros; lia.
      * apply Forall_app; split.
        -- eapply Forall_impl; [|exact Hb]. simpl. intros; lia.
        -- repeat constructor.
    + intros _ vs [Hs Hb]. split; [exact Hs|].
      eapply Forall_impl; [|exact Hb]. simpl. intros; lia.
    + exact H.
Qed.

Lemma collect_placed (all stars : list Star) (n : nat) (d : Dict (list Row))
    (nd : Snapshot) :
  (forall i s, nth_error stars i = Some s -> nth_error all (n + i) = Some s) ->
  Forall (fun lg => Forall (placed all (fst lg)) (snd lg)) d ->
  Forall (fun lg => Forall (placed all (fst lg)) (snd lg))
         (fst (collect stars n d nd)).
Proof.
  revert n d nd; induction stars as [|s rest IH]; intros n d nd Hnth H; simpl.
  - exact H.
  - assert (Hs : placed all (language_of s) (row_of s n)).
    { exists s. simpl. split; [|split; reflexivity].
      rewrite <- (Nat.add_0_r n). apply Hnth. reflexivity. }
    apply IH.
    + intros i s' Hi. replace (S n + i) with (n + S i) by lia.
      apply Hnth. exact Hi.
    + apply (dict_append_groups (fun k g => Forall (placed all k) g)
               (fun k g => Forall (placed all k) g)).
      * repeat constructor. exact Hs.
      * intros vs Hvs. apply Forall_app; split; [exact Hvs|].
        repeat constructor. exact Hs.
      * intros k' vs Hvs. exact Hvs.
      * exact H.
Qed.

Lemma rows_from_length (stars : list Star) (n : nat) :
  List.length (rows_from stars n) = List.length stars.
Proof.
  revert n; induction stars as [|s rest IH]; intros n; simpl; congruence.
Qed.

Lemma rows_from_order (stars : list Star) (n : nat) :
  Forall (fun r => n <= r_order r) (rows_from stars n).
Proof.
  revert n; induction stars as [|s rest IH]; intros n; simpl; constructor.
  - simpl. lia.
  - eapply Forall_impl; [|apply IH]. simpl. intros; lia.
Qed.

Lemma rows_from_NoDup (stars : list Star) (n : nat) :
  NoDup (rows_from stars n).
Proof.
  revert n; induction stars as [|s rest IH]; intros n; simpl; constructor.
  - intros Hin. pose proof (rows_from_order rest (S n)) as H.
    rewrite Forall_forall in H. specialize (H _ Hin). simpl in H. lia.
  - apply IH.
Qed.

(** The groups before the sort within the groups. *)
Lemma grouped_spec (stars : list Star) :
  let d := fst (grouped stars) in
  Permutation (List.concat (map snd d)) (rows_from stars 0)
  /\ NoDup (map fst d)
  /\ Forall (fun lg => fetch_ordered (List.length stars) (snd lg)) d
  /\ Forall (fun lg => Forall (placed stars (fst lg)) (snd lg)) d.
Proof.
  unfold grouped.
  pose proof (collect_concat stars 0 [] []) as Hc.
  pose proof (@collect_NoDup stars 0 [] [] (NoDup_nil _)) as Hn.
  pose proof (@collect_fetch_ordered stars 0 [] [] (Forall_nil _)) as Hf.
  pose proof (@collect_placed stars stars 0 [] []
                (fun i s H => H) (Forall_nil _)) as Hp.
  destruct (collect stars 0 [] []) as [d nd]. simpl in *.
  pose proof (sorted_items_perm d) as P.
  split; [|split; [|split]].
  - rewrite (Permutation_concat_groups (Permutation_map snd P)). exact Hc.
  - apply (Permutation_NoDup (Permutation_sym (Permutation_map fst P)) Hn).
  - apply (Permutation_Forall (Permutation_sym P) Hf).
  - apply (Permutation_Forall (Permutation_sym P) Hp).
Qed.

Lemma aggregate_fst (sort : SortMode) (stars : list Star) :
  fst (aggregate sort stars)
  = map (fun lg => (fst lg, sort_group sort (snd lg))) (fst (grouped stars)).
Proof. apply sort_groups_fst. Qed.

Lemma concat_sorted_groups (sort : SortMode) (d : Dict (list Row)) :
  Permutation
    (List.concat (map snd (map (fun lg => (fst lg, sort_group sort (snd lg))) d)))
    (List.concat (map snd d)).
Proof.
  induction d as [|[k g] d IH]; simpl; [reflexivity|].
  apply Permutation_app; [apply sort_group_perm | exact IH].
Qed.

(** C2: after the aggregation, every language group is ordered as the
    sort mode asks: mode [name], non-decreasing by repository name in the
    order of strings; mode [stars], non-increasing by star count and,
    among equal counts, by fetch index (the input order is kept); mode
    [date], non-decreasing by fetch index.  The order holds between any
    two records of a group, the earlier against the later. *)
Theorem sort_correctness (stars : list Star) :
  Forall (fun lg => StronglySorted by_name (snd lg))
         (fst (aggregate SortName stars))
  /\ Forall (fun lg => StronglySorted stars_then_fetch (snd lg))
            (fst (aggregate SortStars stars))
  /\ Forall (fun lg => StronglySorted by_fetch (snd lg))
            (fst (aggregate SortDate stars)).
Proof.
  rewrite !aggregate_fst, !Forall_map. simpl.
  destruct (grouped_spec stars) as (_ & _ & Hf & _).
  split; [|split].
  - apply Forall_forall. intros lg _.
    apply (sorted_StronglySorted str_leb r_name false
             str_leb_total str_leb_trans).
  - eapply Forall_impl; [|exact Hf]. intros lg [Hs _].
    apply sorted_stars_fetch, Hs.
  - apply Forall_forall. intros lg _.
    assert (Ht : forall a b, Nat.leb a b = false -> Nat.leb b a = true).
    { intros a b H. apply Nat.leb_gt in H. apply Nat.leb_le. lia. }
    assert (Hr : forall a b c, Nat.leb a b = true -> Nat.leb b c = true ->
                               Nat.leb a c = true).
    { intros a b c H1 H2. apply Nat.leb_le in H1, H2. apply Nat.leb_le. lia. }
    pose proof (sorted_StronglySorted Nat.leb r_order false Ht Hr (snd lg)) as H.
    clear - H. induction H as [|x l Hl IH Hx]; constructor; [exact IH|].
    eapply Forall_impl; [|exact Hx]. unfold by_fetch, before. simpl.
    intros y Hy. apply Nat.leb_le, Hy.
Qed.

(** The three records of the end-to-end scenario: two in Go, one without
    language, sorted by stars. *)
Example scenario_A :
  aggregate SortStars
    [ mkStar "a" (Some (py "Go")) 10; mkStar "b" (Some (py "Go")) 20;
      mkStar "c" None 5 ]
  = ([ (py "Go", [ row_of (mkStar "b" (Some (py "Go")) 20) 1;
                   row_of (mkStar "a" (Some (py "Go")) 10) 0 ]);
       (py "Others", [ row_of (mkStar "c" None 5) 2 ]) ], 3).
Proof. vm_compute. reflexivity. Qed.

(** Equal star counts keep the fetch order. *)
Example stars_ties_keep_fetch_order :
  map r_name
    (sort_group SortStars
       (rows_from [ mkStar "x" None 7; mkStar "y" None 9; mkStar "z" None 7;
                    mkStar "w" None 9 ] 0))
  = [py "y"; py "w"; py "x"; py "z"].
Proof. vm_compute. reflexivity. Qed.

(** C3: every fetched record is in exactly one language group: the rows of
    all groups together are, as a multiset, the rows of the fetched
    records and no row occurs twice; the keys of the groups are distinct;
    a row of the group with key [k] is the row of the fetched record with
    its fetch index, and [k] is the language of that record, or ["Others"]
    when the record has none; the total is the number of fetched records;
    no record gives no group and total 0. *)
Theorem grouping_completeness (sort : SortMode) (stars : list Star) :
  let groups := fst (aggregate sort stars) in
  let total := snd (aggregate sort stars) in
  Permutation (List.concat (map snd groups)) (rows_from stars 0)
  /\ NoDup (List.concat (map snd groups))
  /\ NoDup (map fst groups)
  /\ Forall (fun lg => Forall (placed stars (fst lg)) (snd lg)) groups
  /\ (forall s, language_of s
                = match language s with
                  | Some (c :: l) => c :: l
                  | _ => py "Others"
                  end)
  /\ total = List.length stars
  /\ aggregate sort [] = ([], 0).
Proof.
  simpl. destruct (grouped_spec stars) as (Hc & Hn & _ & Hp).
  assert (P : Permutation (List.concat (map snd (fst (aggregate sort stars))))
                          (rows_from stars 0)).
  { rewrite aggregate_fst, concat_sorted_groups. exact Hc. }
  split; [exact P|]. split.
  { apply (Permutation_NoDup (Permutation_sym P)), rows_from_NoDup. }
  split.
  { rewrite aggregate_fst, map_map. simpl. exact Hn. }
  split.
  { rewrite aggregate_fst, Forall_map. simpl.
    eapply Forall_impl; [|exact Hp]. intros lg H.
    apply (Permutation_Forall (Permutation_sym (sort_group_perm sort (snd lg))) H). }
  split.
  { intros s. unfold language_of.
    destruct (language s) as [[|c l]|]; reflexivity. }
  split.
  { unfold aggregate. rewrite sort_groups_snd. simpl.
    rewrite (Permutation_length Hc), rows_from_length. reflexivity. }
  reflexivity.
Qed.

(* ================================================================== *)
(** ** The run *)

Lemma list_eqb_eq (A : Type) (eqb : A -> A -> bool) :
  (forall x y, eqb x y = true <-> x = y) ->
  forall a b, list_eqb eqb a b = true <-> a = b.
Proof.
  intros H. induction a as [|x a IH]; intros [|y b]; simpl;
    try (split; (reflexivity || discriminate)).
  rewrite andb_true_iff, H, IH. split.
  - intros [-> ->]; reflexivity.
  - intros E; inversion E; auto.
Qed.

Lemma pair_eqb_eq (A B : Type) (ea : A -> A -> bool) (eb : B -> B -> bool) :
  (forall x y, ea x y = true <-> x = y) ->
  (forall x y, eb x y = true <-> x = y) ->
  forall p q, pair_eqb ea eb p q = true <-> p = q.
Proof.
  intros Ha Hb [a b] [a' b']. unfold pair_eqb. simpl.
  rewrite andb_true_iff, Ha, Hb. split.
  - intros [-> ->]; reflexivity.
  - intros E; inversion E; auto.
Qed.

(** The comparison of two snapshots is structural equality. *)
Lemma snapshot_eqb_eq (old new : Snapshot) :
  snapshot_eqb old new = true <-> old = new.
Proof.
  unfold snapshot_eqb.
  apply list_eqb_eq, pair_eqb_eq; [apply str_eqb_eq|].
  apply list_eqb_eq, pair_eqb_eq; apply str_eqb_eq.
Qed.

Lemma snapshot_eqb_neq (old new : Snapshot) :
  old <> new -> snapshot_eqb old new = false.
Proof.
  intros H. destruct (snapshot_eqb old new) eqn:E; [|reflexivity].
  apply snapshot_eqb_eq in E. contradiction.
Qed.

(** *** Rendering only echoes *)

Lemma echo_all_ok (sink : Sink) (msgs : list str) (w : World) :
  fst (echo_all sink msgs w) = Ok tt.
Proof.
  revert w; induction msgs as [|m rest IH]; intros w; [reflexivity|].
  simpl. unfold bind. simpl. apply IH.
Qed.

Lemma echo_all_frame (sink : Sink) (msgs : list str) (w : World) :
  let w' := snd (echo_all sink msgs w) in
  pkl w' = pkl w /\ stderr w' = stderr w /\ remote w' = remote w
  /\ sys_stdout w' = sys_stdout w
  /\ trace w' = trace w ++ map (EvEcho sink) msgs.
Proof.
  revert w; induction msgs as [|m rest IH]; intros w; simpl.
  - rewrite app_nil_r. auto.
  - unfold bind. simpl.
    match goal with |- context [echo_all sink rest ?w1] =>
      destruct (IH w1) as (H1 & H2 & H3 & H4 & H5) end.
    rewrite H1, H2, H3, H4, H5.
    destruct sink; [|destruct (sys_stdout w) eqn:E]; simpl;
      rewrite <- app_assoc; auto.
Qed.

(** *** The comparison with the stored snapshot *)

Section RunFacts.
Variable lower : str -> str.
Variable GithubFlavoredMarkdownTable : list (list Cell) -> str.

Lemma compare_same_publish (today : str) (new_dict : Snapshot) (w : World) :
  pkl w = Some new_dict ->
  compare_and_save true today new_dict w
  = (Returned NoChange,
     log (EvStderr (py "Error: starred repositories not change in " ++ today))
       (set_stderr
          (stderr w
           ++ [py "Error: starred repositories not change in " ++ today]) w)).
Proof.
  intros H. unfold compare_and_save, bind, pickle_load. rewrite H.
  rewrite (proj2 (snapshot_eqb_eq new_dict new_dict) eq_refl). reflexivity.
Qed.

Lemma compare_same_local (today : str) (new_dict : Snapshot) (w : World) :
  pkl w = Some new_dict ->
  compare_and_save false today new_dict w = (Ok tt, w).
Proof.
  intros H. unfold compare_and_save, bind, pickle_load. rewrite H.
  rewrite (proj2 (snapshot_eqb_eq new_dict new_dict) eq_refl). reflexivity.
Qed.

Lemma compare_changed (repo_file : bool) (today : str) (new_dict : Snapshot)
    (w : World) :
  pkl w <> Some new_dict ->
  compare_and_save repo_file today new_dict w
  = (Ok tt, log (EvPickleDump new_dict) (set_pkl (Some new_dict) w)).
Proof.
  intros H. unfold compare_and_save, bind, pickle_load.
  destruct (pkl w) as [old|]; [|reflexivity].
  rewrite snapshot_eqb_neq; [reflexivity|]. congruence.
Qed.

(** A run that gets the stars and, when publishing, has a token, is the
    comparison, the rendering and the publication from [after_setup]. *)
Lemma starred_after_setup (a : Args) (e : Env) (w : World)
    (stars : list Star) :
  starred_by e = inr stars ->
  token_ok a ->
  starred lower GithubFlavoredMarkdownTable a e w
  = (compare_and_save (truthy (repository a)) (today e)
       (snd (grouped stars)) ;;;
     echo_all (sink_of a)
       (render lower GithubFlavoredMarkdownTable
          (fst (aggregate (sort a) stars)) (snd (aggregate (sort a) stars))
          (today e) (username a) (type a)) ;;;
     if truthy (repository a) then publish a e else ret tt)
      (after_setup a w).
Proof.
  intros Hs Ht. unfold starred, after_setup, sink_of, aggregate, token_ok in *.
  rewrite Hs.
  destruct (truthy (strip (output a))); destruct (truthy (repository a));
    try rewrite (Ht eq_refl);
    unfold bind, open_w, ret, redirect_stdout; cbn [fst snd negb];
    destruct (grouped stars) as [repo_dict new_dict]; cbn [fst snd];
    destruct (sort_groups (sort a) repo_dict 0) as [sorted_dict total];
    reflexivity.
Qed.

Lemma after_setup_frame (a : Args) (w : World) :
  let w' := after_setup a w in
  pkl w' = pkl w /\ stderr w' = stderr w /\ remote w' = remote w
  /\ sys_stdout w'
     = (if truthy (repository a) then Buffer else sys_stdout w)
  /\ trace w' = trace w ++ setup_events a.
Proof.
  unfold after_setup, setup_events.
  destruct (truthy (strip (output a))); destruct (truthy (repository a));
    simpl; rewrite <- ?app_assoc, ?app_nil_r; auto.
Qed.

(** *** Publishing keeps the snapshot store and [sys.stdout] *)

Section Frame.
Variable P : World -> World -> Prop.
Hypothesis P_refl : forall w, P w w.
Hypothesis P_trans : forall w1 w2 w3, P w1 w2 -> P w2 w3 -> P w1 w3.

Lemma keeps_ret (A : Type) (x : A) : keeps P (ret x).
Proof. intros w. apply P_refl. Qed.

Lemma keeps_return (A : Type) (site : ReturnSite) :
  keeps P (@return_ A site).
Proof. intros w. apply P_refl. Qed.

Lemma keeps_bind (A B : Type) (m : M A) (k : A -> M B) :
  keeps P m -> (forall x, keeps P (k x)) -> keeps P (bind m k).
Proof.
  intros Hm Hk w. unfold bind. specialize (Hm w).
  destruct (m w) as [[x|site|ex] w1]; simpl in *; try exact Hm.
  apply (P_trans Hm). apply Hk.
Qed.

Lemma keeps_try (A : Type) (m h : M A) (ex : Exn) :
  keeps P m -> keeps P h -> keeps P (try_except m ex h).
Proof.
  intros Hm Hh w. unfold try_except. specialize (Hm w).
  destruct (m w) as [[x|site|ex'] w1]; simpl in *; try exact Hm.
  destruct (exn_eqb ex ex'); [|exact Hm].
  apply (P_trans Hm). apply Hh.
Qed.
End Frame.

Lemma kept_refl (w : World) : kept w w.
Proof.
  split; [|split]; try reflexivity. exists []. rewrite app_nil_r. reflexivity.
Qed.

Lemma kept_trans (w1 w2 w3 : World) : kept w1 w2 -> kept w2 w3 -> kept w1 w3.
Proof.
  intros (H1 & H2 & evs & H3) (K1 & K2 & evs' & K3).
  split; [congruence|]. split; [congruence|].
  exists (evs ++ evs'). rewrite K3, H3, app_assoc. reflexivity.
Qed.

Lemma kept_log (ev : Event) (w : World) : kept w (log ev w).
Proof.
  split; [|split]; try reflexivity. exists [ev]. reflexivity.
Qed.

Lemma kept_same_stdout (A : Type) (m : M A) :
  keeps kept m -> keeps same_stdout m.
Proof. intros H w. apply (H w). Qed.

Lemma keeps_secho_err (msg : str) : keeps kept (secho_err msg).
Proof.
  intros w. split; [|split]; try reflexivity. exists [EvStderr msg].
  reflexivity.
Qed.

Lemma keeps_getvalue : keeps kept getvalue.
Proof. intros w. apply kept_refl. Qed.

Lemma keeps_gh_repository : keeps kept gh_repository.
Proof.
  intros w. unfold gh_repository. destruct (remote w); apply kept_refl.
Qed.

Lemma keeps_file_contents (path : str) : keeps kept (file_contents path).
Proof.
  intros w. unfold file_contents. destruct (remote w) as [r|];
    [destruct (dict_get (norm_path path) (repo_files r))|]; apply kept_refl.
Qed.

Lemma keeps_readme_update (message content : str) :
  keeps kept (readme_update message content).
Proof.
  intros w. unfold readme_update. destruct (remote w) as [r|];
    [|apply kept_refl].
  split; [|split]; try reflexivity. eexists. reflexivity.
Qed.

Lemma keeps_create_file (path message content : str) :
  keeps kept (create_file path message content).
Proof.
  intros w. unfold create_file. destruct (remote w) as [r|];
    [destruct (dict_get (norm_path path) (repo_files r))|];
    try apply kept_refl.
  split; [|split]; try reflexivity. eexists. reflexivity.
Qed.

Lemma keeps_create_repository (url name descr : str) :
  keeps kept (create_repository url name descr).
Proof.
  intros w. unfold create_repository. destruct (remote w) as [r|];
    [apply kept_refl|].
  split; [|split]; try reflexivity. eexists. reflexivity.
Qed.

Lemma keeps_click_launch (url : str) : keeps kept (click_launch url).
Proof. intros w. apply kept_log. Qed.

Lemma keeps_publish (a : Args) (e : Env) : keeps kept (publish a e).
Proof.
  unfold publish, rep_readme.
  repeat first
    [ apply (keeps_bind kept_trans) | apply (keeps_try kept_trans)
    | apply (keeps_ret kept_refl)
    | apply keeps_secho_err | apply keeps_getvalue
    | apply keeps_gh_repository | apply keeps_file_contents
    | apply keeps_readme_update | apply keeps_create_file
    | apply keeps_create_repository | apply keeps_click_launch
    | match goal with
      | |- forall _, _ => intro
      | |- keeps _ (if ?b then _ else _) => destruct b
      end ].
Qed.

Lemma keeps_echo_all (sink : Sink) (msgs : list str) :
  keeps same_stdout (echo_all sink msgs).
Proof. intros w. apply (echo_all_frame sink msgs w). Qed.

Lemma keeps_compare_and_save (repo_file : bool) (today : str)
    (new_dict : Snapshot) :
  keeps same_stdout (compare_and_save repo_file today new_dict).
Proof.
  intros w. unfold compare_and_save, bind, pickle_load, same_stdout.
  destruct (pkl w) as [old|]; [|reflexivity].
  destruct (snapshot_eqb old new_dict); [|reflexivity].
  destruct repo_file; reflexivity.
Qed.

(** With today's archive in the repository, publishing reports the
    duplicate and goes on to the launch. *)
Lemma publish_duplicate (a : Args) (e : Env) (w : World) (r : Repo)
    (c : str) :
  remote w = Some r ->
  dict_get (archive_path (today e)) (repo_files r) = Some c ->
  publish a e w
  = (if launch a then click_launch (repo_url r) else ret tt)
      (log (EvStderr (duplicate_msg e))
         (set_stderr (stderr w ++ [duplicate_msg e]) w)).
Proof.
  intros Hr Hc.
  unfold publish, try_except, bind, gh_repository, file_contents.
  rewrite Hr.
  change (norm_path (py "/" ++ archive_path (today e)))
    with (archive_path (today e)).
  cbn beta iota. rewrite Hr, Hc. reflexivity.
Qed.

End RunFacts.

(* ================================================================== *)
(** ** Properties of the run *)

Unset Implicit Arguments.

Section RunTheorems.
Variable lower : str -> str.
Variable GithubFlavoredMarkdownTable : list (list Cell) -> str.

Let run := starred lower GithubFlavoredMarkdownTable.

(** The echoes of the document of a run on [stars]. *)
Let doc (a : Args) (e : Env) (stars : list Star) : list Event :=
  map (EvEcho (sink_of a))
    (render lower GithubFlavoredMarkdownTable
       (fst (aggregate (sort a) stars)) (snd (aggregate (sort a) stars))
       (today e) (username a) (type a)).

(** The three ways a run goes on from the comparison. *)
Lemma starred_changed_eq (a : Args) (e : Env) (w : World)
    (stars : list Star) :
  starred_by e = inr stars ->
  token_ok a ->
  pkl w <> Some (snd (grouped stars)) ->
  run a e w
  = (if truthy (repository a) then publish a e else ret tt)
      (snd (echo_all (sink_of a)
              (render lower GithubFlavoredMarkdownTable
                 (fst (aggregate (sort a) stars))
                 (snd (aggregate (sort a) stars))
                 (today e) (username a) (type a))
              (log (EvPickleDump (snd (grouped stars)))
                 (set_pkl (Some (snd (grouped stars))) (after_setup a w))))).
Proof.
  intros Hs Ht Hp. unfold run.
  rewrite (@starred_after_setup lower GithubFlavoredMarkdownTable a e w stars Hs Ht).
  destruct (after_setup_frame a w) as (S1 & _).
  unfold bind. rewrite compare_changed by (rewrite S1; exact Hp).
  match goal with |- context [echo_all ?s ?m ?w1] =>
    pose proof (echo_all_ok s m w1) as E0;
    destruct (echo_all s m w1) as [r2 w2] end.
  simpl in E0. subst r2. reflexivity.
Qed.

Lemma starred_same_publish_eq (a : Args) (e : Env) (w : World)
    (stars : list Star) :
  starred_by e = inr stars ->
  token_ok a ->
  pkl w = Some (snd (grouped stars)) ->
  truthy (repository a) = true ->
  run a e w
  = (Returned NoChange,
     log (EvStderr (no_change_msg e))
       (set_stderr (stderr (after_setup a w) ++ [no_change_msg e])
          (after_setup a w))).
Proof.
  intros Hs Ht Hp Hr. unfold run.
  rewrite (@starred_after_setup lower GithubFlavoredMarkdownTable a e w stars Hs Ht).
  destruct (after_setup_frame a w) as (S1 & _).
  unfold bind. rewrite Hr.
  rewrite compare_same_publish by (rewrite S1; exact Hp). reflexivity.
Qed.

Lemma starred_same_local_eq (a : Args) (e : Env) (w : World)
    (stars : list Star) :
  starred_by e = inr stars ->
  token_ok a ->
  pkl w = Some (snd (grouped stars)) ->
  truthy (repository a) = false ->
  run a e w
  = (Ok tt,
     snd (echo_all (sink_of a)
            (render lower GithubFlavoredMarkdownTable
               (fst (aggregate (sort a) stars))
               (snd (aggregate (sort a) stars))
               (today e) (username a) (type a))
            (after_setup a w))).
Proof.
  intros Hs Ht Hp Hr. unfold run.
  rewrite (@starred_after_setup lower GithubFlavoredMarkdownTable a e w stars Hs Ht).
  destruct (after_setup_frame a w) as (S1 & _).
  unfold bind. rewrite Hr.
  rewrite compare_same_local by (rewrite S1; exact Hp).
  match goal with |- context [echo_all ?s ?m ?w1] =>
    pose proof (echo_all_ok s m w1) as E0;
    destruct (echo_all s m w1) as [r2 w2] end.
  simpl in E0. subst r2. reflexivity.
Qed.

(** A run whose snapshot differs from the stored one writes the store,
    then renders, then publishes. *)
Lemma starred_changed (a : Args) (e : Env) (w : World) (stars : list Star) :
  starred_by e = inr stars ->
  token_ok a ->
  pkl w <> Some (snd (grouped stars)) ->
  pkl (snd (run a e w)) = Some (snd (grouped stars))
  /\ exists post,
       trace (snd (run a e w))
       = trace w ++ setup_events a
         ++ EvPickleDump (snd (grouped stars)) :: doc a e stars ++ post
       /\ (truthy (repository a) = false ->
           post = [] /\ fst (run a e w) = Ok tt).
Proof.
  intros Hs Ht Hp. rewrite (starred_changed_eq a e w stars Hs Ht Hp). unfold doc.
  destruct (after_setup_frame a w) as (S1 & _ & _ & _ & S5).
  match goal with |- context [echo_all ?s ?m ?w1] =>
    destruct (echo_all_frame s m w1) as (E1 & _ & _ & _ & E5);
    set (w2 := snd (echo_all s m w1)) in * end.
  simpl in E1, E5. rewrite S5 in E5.
  destruct (truthy (repository a)).
  - destruct (keeps_publish a e w2) as (K1 & _ & post & K3).
    split; [congruence|].
    exists post. split; [|discriminate].
    rewrite K3, E5, <- !app_assoc. reflexivity.
  - simpl. split; [exact E1|]. exists []. split; [|auto].
    rewrite E5, <- !app_assoc, app_nil_r. reflexivity.
Qed.

(** C1: the comparison of the stored snapshot with the new one is
    structural equality.  A run that gets the stars (with a token when
    it publishes): with no stored snapshot, or a different one, writes
    the new snapshot to the store, before the document; with an equal
    one and a repository to publish to, reports the no-change error and
    returns, having rendered nothing and done nothing on the host; with
    an equal one and no repository, leaves the store alone and renders
    the document. *)
Theorem change_detection (a : Args) (e : Env) (w : World)
    (stars : list Star) :
  starred_by e = inr stars ->
  token_ok a ->
  let new_dict := snd (grouped stars) in
  (forall old, snapshot_eqb old new_dict = true <-> old = new_dict)
  /\ (pkl w = None ->
      pkl (snd (run a e w)) = Some new_dict
      /\ exists post,
           trace (snd (run a e w))
           = trace w ++ setup_events a
             ++ EvPickleDump new_dict :: doc a e stars ++ post)
  /\ (pkl w <> Some new_dict ->
      pkl (snd (run a e w)) = Some new_dict
      /\ exists post,
           trace (snd (run a e w))
           = trace w ++ setup_events a
             ++ EvPickleDump new_dict :: doc a e stars ++ post)
  /\ (pkl w = Some new_dict -> truthy (repository a) = true ->
      fst (run a e w) = Returned NoChange
      /\ stderr (snd (run a e w)) = stderr w ++ [no_change_msg e]
      /\ pkl (snd (run a e w)) = pkl w
      /\ remote (snd (run a e w)) = remote w
      /\ trace (snd (run a e w))
         = trace w ++ setup_events a ++ [EvStderr (no_change_msg e)])
  /\ (pkl w = Some new_dict -> truthy (repository a) = false ->
      fst (run a e w) = Ok tt
      /\ pkl (snd (run a e w)) = pkl w
      /\ trace (snd (run a e w)) = trace w ++ setup_events a ++ doc a e stars).
Proof.
  intros Hs Ht new_dict.
  assert (Hchanged : pkl w <> Some new_dict ->
            pkl (snd (run a e w)) = Some new_dict
            /\ exists post,
                 trace (snd (run a e w))
                 = trace w ++ setup_events a
                   ++ EvPickleDump new_dict :: doc a e stars ++ post).
  { intros Hp. destruct (starred_changed a e w stars Hs Ht Hp) as (H1 & post & H2 & _).
    split; [exact H1|]. exists post. exact H2. }
  split; [intros old; apply snapshot_eqb_eq|].
  split; [intros Hn; apply Hchanged; congruence|].
  split; [exact Hchanged|].
  destruct (after_setup_frame a w) as (S1 & S2 & S3 & _ & S5).
  split.
  - intros Hp Hr. rewrite (starred_same_publish_eq a e w stars Hs Ht Hp Hr).
    simpl. rewrite S1, S2, S3, S5, <- app_assoc. auto.
  - intros Hp Hr. rewrite (starred_same_local_eq a e w stars Hs Ht Hp Hr). unfold doc.
    match goal with |- context [echo_all ?s ?m ?w1] =>
      destruct (echo_all_frame s m w1) as (E1 & _ & _ & _ & E5) end.
    simpl in *. rewrite E1, E5, S1, S5, <- app_assoc. auto.
Qed.

Lemma info_rows_length (start : nat) (g : list Row) :
  List.length (info_rows start g) = List.length g.
Proof.
  revert start; induction g as [|r g IH]; intros start; simpl; congruence.
Qed.

Lemma render_headings (repo_dict : Dict (list Row)) (total : nat)
    (today username : str) (type : OutputType) :
  Forall (fun lg =>
            In (heading (fst lg) (List.length (snd lg)))
               (render lower GithubFlavoredMarkdownTable repo_dict total
                  today username type))
         repo_dict.
Proof.
  apply Forall_forall. intros [k g] Hin. unfold render. simpl.
  right. apply in_or_app. right. right. apply in_or_app. left.
  apply in_concat.
  exists (section_msgs GithubFlavoredMarkdownTable type repo_dict
            (k, info_rows 0 g)).
  split.
  - apply in_map. unfold sorted_items. apply sorted_In.
    apply (in_map (fun lg => (fst lg, info_rows 0 (snd lg))) _ _ Hin).
  - unfold section_msgs. rewrite info_rows_length. left. reflexivity.
Qed.

(** C7, as the code does it: the heading of a section is [## ], the
    language name in which every [#] is replaced by [# #] (a space and a
    second [#] follow it), the count in parentheses, a space and a
    newline; [render] emits this heading for every language group, with
    the size of the group as count.  For ["C#"] the heading is
    [## C# # (1) ], which contains ["C# "]. *)
Theorem heading_escape :
  (forall language count,
      heading language count
      = py "## " ++ flat_map hash_escape language ++ py " ("
        ++ str_of_nat count ++ py ") " ++ nl)
  /\ (forall repo_dict total today username type,
        Forall (fun lg =>
                  In (heading (fst lg) (List.length (snd lg)))
                     (render lower GithubFlavoredMarkdownTable repo_dict
                        total today username type))
               repo_dict)
  /\ heading (py "C#") 1 = py "## " ++ py "C# " ++ py "# (1) " ++ nl.
Proof.
  split; [exact heading_flat_map|]. split; [exact render_headings|].
  vm_compute. reflexivity.
Qed.

Lemma echo_not_remote_write (sink : Sink) (msgs : list str) :
  forallb (fun ev => negb (is_remote_write ev)) (map (EvEcho sink) msgs)
  = true.
Proof. induction msgs as [|m rest IH]; simpl; auto. Qed.

Lemma setup_not_remote_write (a : Args) :
  forallb (fun ev => negb (is_remote_write ev)) (setup_events a) = true.
Proof.
  unfold setup_events.
  destruct (truthy (strip (output a))); destruct (truthy (repository a));
    reflexivity.
Qed.

Lemma setup_quiet (a : Args) : forallb quiet (setup_events a) = true.
Proof.
  unfold setup_events.
  destruct (truthy (strip (output a))); destruct (truthy (repository a));
    reflexivity.
Qed.

(** A publishing run that finds today's archive in the repository. *)
Lemma starred_duplicate (a : Args) (e : Env) (w : World)
    (stars : list Star) (r : Repo) (c : str) :
  starred_by e = inr stars ->
  truthy (repository a) = true ->
  opt_truthy (token a) = true ->
  pkl w <> Some (snd (grouped stars)) ->
  remote w = Some r ->
  dict_get (archive_path (today e)) (repo_files r) = Some c ->
  fst (run a e w) = Ok tt
  /\ stderr (snd (run a e w)) = stderr w ++ [duplicate_msg e]
  /\ remote (snd (run a e w)) = remote w
  /\ trace (snd (run a e w))
     = trace w ++ setup_events a
       ++ EvPickleDump (snd (grouped stars)) :: doc a e stars
       ++ EvStderr (duplicate_msg e)
          :: (if launch a then [EvLaunch (repo_url r)] else []).
Proof.
  intros Hs Hr Ht Hp Hrem Hc.
  rewrite (starred_changed_eq a e w stars Hs (fun _ => Ht) Hp). unfold doc.
  rewrite Hr.
  destruct (after_setup_frame a w) as (_ & S2 & S3 & _ & S5).
  match goal with |- context [echo_all ?s ?m ?w1] =>
    destruct (echo_all_frame s m w1) as (_ & E2 & E3 & _ & E5);
    set (w2 := snd (echo_all s m w1)) in * end.
  cbn [trace stderr remote log set_pkl] in E2, E3, E5.
  rewrite S2 in E2. rewrite S3, Hrem in E3.
  rewrite S5 in E5.
  rewrite (@publish_duplicate a e w2 r c E3 Hc).
  destruct (launch a); simpl; rewrite E2, E3, E5, Hrem, <- !app_assoc;
    simpl; auto.
Qed.

(** C8, as the code does it: in a publishing run (the stars are fetched,
    a token is given), when the repository exists and holds
    [Archives/README-<today>.md], nothing is written on the host: the
    repository is as it was, and no event of the run creates a
    repository, updates the readme or creates a file.  The run whose
    snapshot differs from the stored one (or that finds none stored)
    reaches the publication and reports the duplicate-archive error; the
    run whose snapshot is the stored one has returned before, at the
    no-change error, and reports that one only. *)
Theorem duplicate_archive_no_write (a : Args) (e : Env) (w : World)
    (stars : list Star) (r : Repo) (c : str) :
  starred_by e = inr stars ->
  truthy (repository a) = true ->
  opt_truthy (token a) = true ->
  remote w = Some r ->
  dict_get (archive_path (today e)) (repo_files r) = Some c ->
  remote (snd (run a e w)) = remote w
  /\ (exists evs,
        trace (snd (run a e w)) = trace w ++ evs
        /\ forallb (fun ev => negb (is_remote_write ev)) evs = true)
  /\ (pkl w <> Some (snd (grouped stars)) ->
      stderr (snd (run a e w)) = stderr w ++ [duplicate_msg e]
      /\ exists pre post,
           trace (snd (run a e w))
           = trace w ++ pre ++ EvStderr (duplicate_msg e) :: post)
  /\ (pkl w = Some (snd (grouped stars)) ->
      fst (run a e w) = Returned NoChange
      /\ stderr (snd (run a e w)) = stderr w ++ [no_change_msg e]).
Proof.
  intros Hs Hr Ht Hrem Hc.
  assert (Hdup : pkl w <> Some (snd (grouped stars)) ->
            remote (snd (run a e w)) = remote w
            /\ (exists evs,
                  trace (snd (run a e w)) = trace w ++ evs
                  /\ forallb (fun ev => negb (is_remote_write ev)) evs = true)
            /\ stderr (snd (run a e w)) = stderr w ++ [duplicate_msg e]
            /\ exists pre post,
                 trace (snd (run a e w))
                 = trace w ++ pre ++ EvStderr (duplicate_msg e) :: post).
  { intros Hp.
    destruct (starred_duplicate a e w stars r c Hs Hr Ht Hp Hrem Hc)
      as (_ & H2 & H3 & H4).
    split; [exact H3|]. split; [|split; [exact H2|]].
    - eexists. split; [exact H4|].
      rewrite forallb_app, setup_not_remote_write. simpl.
      unfold doc. rewrite forallb_app, echo_not_remote_write. simpl.
      destruct (launch a); reflexivity.
    - exists (setup_events a
              ++ EvPickleDump (snd (grouped stars)) :: doc a e stars).
      eexists. rewrite H4, <- !app_assoc. simpl.
      rewrite <- ?app_assoc. reflexivity. }
  assert (Hsame : pkl w = Some (snd (grouped stars)) ->
            (remote (snd (run a e w)) = remote w
             /\ exists evs,
                  trace (snd (run a e w)) = trace w ++ evs
                  /\ forallb (fun ev => negb (is_remote_write ev)) evs = true)
            /\ fst (run a e w) = Returned NoChange
            /\ stderr (snd (run a e w)) = stderr w ++ [no_change_msg e]).
  { intros Hp.
    rewrite (starred_same_publish_eq a e w stars Hs (fun _ => Ht) Hp Hr).
    destruct (after_setup_frame a w) as (_ & S2 & S3 & _ & S5).
    simpl. split; [split; [exact S3|]|].
    - eexists. rewrite S5, <- app_assoc. split; [reflexivity|].
      rewrite forallb_app, setup_not_remote_write. reflexivity.
    - rewrite S2. split; reflexivity. }
  assert (Hdec : pkl w = Some (snd (grouped stars))
                 \/ pkl w <> Some (snd (grouped stars))).
  { destruct (pkl w) as [old|]; [|right; discriminate].
    destruct (snapshot_eqb old (snd (grouped stars))) eqn:E.
    - left. apply snapshot_eqb_eq in E. congruence.
    - right. intros H. inversion H; subst.
      rewrite (proj2 (snapshot_eqb_eq _ _) eq_refl) in E. discriminate. }
  destruct Hdec as [Hp|Hp].
  - destruct (Hsame Hp) as ((H1 & H2) & H3).
    split; [exact H1|]. split; [exact H2|].
    split; [intros Hn; contradiction | intros _; exact H3].
  - destruct (Hdup Hp) as (H1 & H2 & H3 & H4).
    split; [exact H1|]. split; [exact H2|].
    split; [intros _; split; assumption | intros Hn; contradiction].
Qed.

(** C6, as the code does it: a run that is asked to publish and has a
    token binds [sys.stdout] to the buffer and leaves it so, however the
    run ends (to the end, at a [return] after an error, or with an
    exception); any other run leaves [sys.stdout] as it was.  The
    original stream is never put back. *)
Theorem stdout_left_redirected (a : Args) (e : Env) (w : World) :
  sys_stdout (snd (run a e w))
  = if truthy (repository a) && opt_truthy (token a) then Buffer
    else sys_stdout w.
Proof.
  destruct (starred_by e) as [err|stars] eqn:Hs.
  - unfold run, starred. rewrite Hs.
    destruct (fetch_is_lazy e);
      destruct (truthy (strip (output a))); destruct (truthy (repository a));
      destruct (opt_truthy (token a)); reflexivity.
  - destruct (truthy (repository a)) eqn:Hr;
      destruct (opt_truthy (token a)) eqn:Ht.
    + assert (Hok : token_ok a) by (intros _; exact Ht).
      unfold run.
      rewrite (@starred_after_setup lower GithubFlavoredMarkdownTable
                 a e w stars Hs Hok).
      destruct (after_setup_frame a w) as (_ & _ & _ & S4 & _).
      rewrite Hr in *. cbn [andb]. rewrite <- S4.
      assert (Tr : forall w1 w2 w3, same_stdout w1 w2 -> same_stdout w2 w3 ->
                     same_stdout w1 w3)
        by (unfold same_stdout; intros; congruence).
      apply (keeps_bind Tr).
      * apply keeps_compare_and_save.
      * intros _. apply (keeps_bind Tr); [apply keeps_echo_all|].
        intros _. apply kept_same_stdout, keeps_publish.
    + unfold run, starred. rewrite Hr, Ht.
      destruct (truthy (strip (output a))); reflexivity.
    + assert (Hok : token_ok a) by (unfold token_ok; congruence).
      unfold run.
      rewrite (@starred_after_setup lower GithubFlavoredMarkdownTable
                 a e w stars Hs Hok).
      destruct (after_setup_frame a w) as (_ & _ & _ & S4 & _).
      rewrite Hr in *. cbn [andb]. rewrite <- S4.
      assert (Tr : forall w1 w2 w3, same_stdout w1 w2 -> same_stdout w2 w3 ->
                     same_stdout w1 w3)
        by (unfold same_stdout; intros; congruence).
      apply (keeps_bind Tr).
      * apply keeps_compare_and_save.
      * intros _. apply (keeps_bind Tr); [apply keeps_echo_all|].
        intros _. apply (@keeps_ret same_stdout (fun w0 => eq_refl)).
    + assert (Hok : token_ok a) by (unfold token_ok; congruence).
      unfold run.
      rewrite (@starred_after_setup lower GithubFlavoredMarkdownTable
                 a e w stars Hs Hok).
      destruct (after_setup_frame a w) as (_ & _ & _ & S4 & _).
      rewrite Hr in *. cbn [andb]. rewrite <- S4.
      assert (Tr : forall w1 w2 w3, same_stdout w1 w2 -> same_stdout w2 w3 ->
                     same_stdout w1 w3)
        by (unfold same_stdout; intros; congruence).
      apply (keeps_bind Tr).
      * apply keeps_compare_and_save.
      * intros _. apply (keeps_bind Tr); [apply keeps_echo_all|].
        intros _. apply (@keeps_ret same_stdout (fun w0 => eq_refl)).
Qed.

(** C10: when the new snapshot differs from the stored one (or none is
    stored), the run writes the new snapshot to the store before it
    echoes any line of the document and before any operation on the
    host: only the set-up events come before the write.  The store holds
    the new snapshot however the publication ends.  In a publishing run:
    if the publication fails on the duplicate-archive error, the host is
    unchanged; and the same run repeated on the same stars returns at
    the no-change error, again with nothing done on the host. *)
Theorem snapshot_before_publish (a : Args) (e : Env) (w : World)
    (stars : list Star) :
  starred_by e = inr stars ->
  token_ok a ->
  pkl w <> Some (snd (grouped stars)) ->
  let new_dict := snd (grouped stars) in
  let w1 := snd (run a e w) in
  let w2 := snd (run a e w1) in
  (exists post,
      trace w1
      = trace w ++ setup_events a
        ++ EvPickleDump new_dict :: doc a e stars ++ post)
  /\ forallb quiet (setup_events a) = true
  /\ pkl w1 = Some new_dict
  /\ (truthy (repository a) = true ->
      (forall r c,
          remote w = Some r ->
          dict_get (archive_path (today e)) (repo_files r) = Some c ->
          remote w1 = remote w
          /\ stderr w1 = stderr w ++ [duplicate_msg e])
      /\ fst (run a e w1) = Returned NoChange
      /\ stderr w2 = stderr w1 ++ [no_change_msg e]
      /\ remote w2 = remote w1
      /\ pkl w2 = Some new_dict
      /\ trace w2
         = trace w1 ++ setup_events a ++ [EvStderr (no_change_msg e)]).
Proof.
  intros Hs Hok Hp new_dict w1 w2.
  destruct (starred_changed a e w stars Hs Hok Hp) as (H1 & post & H2 & _).
  fold new_dict w1 in H1, H2.
  split; [exists post; exact H2|].
  split; [apply setup_quiet|].
  split; [exact H1|].
  intros Hr. split.
  { intros r c Hrem Hc.
    destruct (starred_duplicate a e w stars r c Hs Hr (Hok Hr) Hp Hrem Hc)
      as (_ & D2 & D3 & _).
    split; [exact D3 | exact D2]. }
  unfold w2.
  rewrite (starred_same_publish_eq a e w1 stars Hs Hok H1 Hr).
  destruct (after_setup_frame a w1) as (S1 & S2 & S3 & _ & S5).
  simpl. rewrite S1, S2, S3, S5, <- app_assoc. auto.
Qed.

(** On a [ForbiddenError] raised by the call the run reports it and
    returns; the store is not written and nothing is echoed, but a named
    output file has been opened for writing, so it is empty. *)
Lemma starred_forbidden (a : Args) (e : Env) (w : World) (err : str) :
  starred_by e = inl err ->
  fetch_is_lazy e = false ->
  token_ok a ->
  fst (run a e w) = Returned Forbidden
  /\ pkl (snd (run a e w)) = pkl w
  /\ remote (snd (run a e w)) = remote w
  /\ trace (snd (run a e w))
     = trace w ++ setup_events a
       ++ [EvStderr (py "Error: talk to Github failed: " ++ err)]
  /\ out_file (snd (run a e w))
     = if truthy (strip (output a)) then Some [] else out_file w.
Proof.
  intros Hs Hl Ht. unfold run, starred, setup_events, token_ok in *.
  rewrite Hs, Hl.
  destruct (truthy (strip (output a))); destruct (truthy (repository a));
    try rewrite (Ht eq_refl); simpl; rewrite <- ?app_assoc; auto.
Qed.

End RunTheorems.

(* ================================================================== *)
(** ** Closed runs *)

Lemma change_detection_witness :
  (starred_by sample_env = inr sample_stars /\ token_ok local_args
   /\ token_ok publish_args)
  /\ pkl (snd (starred ascii_lower plain_table local_args sample_env
                 first_world))
     = Some (snd (grouped sample_stars))
  /\ fst (starred ascii_lower plain_table publish_args sample_env
            unchanged_world)
     = Returned NoChange
  /\ pkl (snd (starred ascii_lower plain_table local_args sample_env
                 unchanged_world))
     = pkl unchanged_world.
Proof.
  assert (Hs : starred_by sample_env = inr sample_stars) by reflexivity.
  assert (Hl : token_ok local_args) by (intros H; discriminate H).
  assert (Hp : token_ok publish_args) by (intros _; reflexivity).
  split; [repeat split; assumption|].
  split; [|split].
  - destruct (change_detection ascii_lower plain_table local_args sample_env
                first_world sample_stars Hs Hl) as (_ & H & _).
    apply H. reflexivity.
  - destruct (change_detection ascii_lower plain_table publish_args sample_env
                unchanged_world sample_stars Hs Hp) as (_ & _ & _ & H & _).
    apply H; reflexivity.
  - destruct (change_detection ascii_lower plain_table local_args sample_env
                unchanged_world sample_stars Hs Hl) as (_ & _ & _ & _ & H).
    apply H; reflexivity.
Defined.

Lemma duplicate_archive_no_write_witness :
  (starred_by sample_env = inr sample_stars
   /\ truthy (repository publish_args) = true
   /\ opt_truthy (token publish_args) = true
   /\ remote archived_world = Some published_repo
   /\ dict_get (archive_path (today sample_env)) (repo_files published_repo)
      = Some (py "# Awesome Stars"))
  /\ remote (snd (starred ascii_lower plain_table publish_args sample_env
                    archived_world))
     = remote archived_world
  /\ stderr (snd (starred ascii_lower plain_table publish_args sample_env
                    archived_world))
     = stderr archived_world ++ [duplicate_msg sample_env].
Proof.
  assert (Hp : pkl archived_world <> Some (snd (grouped sample_stars)))
    by (vm_compute; discriminate).
  split; [repeat split; reflexivity|].
  destruct (duplicate_archive_no_write ascii_lower plain_table publish_args
              sample_env archived_world sample_stars published_repo
              (py "# Awesome Stars") eq_refl eq_refl eq_refl eq_refl eq_refl)
    as (H1 & _ & H3 & _).
  split; [exact H1|]. apply (H3 Hp).
Defined.

Lemma snapshot_before_publish_witness :
  (starred_by sample_env = inr sample_stars /\ token_ok publish_args
   /\ pkl archived_world <> Some (snd (grouped sample_stars)))
  /\ pkl (snd (starred ascii_lower plain_table publish_args sample_env
                 archived_world))
     = Some (snd (grouped sample_stars))
  /\ fst (starred ascii_lower plain_table publish_args sample_env
            (snd (starred ascii_lower plain_table publish_args sample_env
                    archived_world)))
     = Returned NoChange.
Proof.
  assert (Hs : starred_by sample_env = inr sample_stars) by reflexivity.
  assert (Ht : token_ok publish_args) by (intros _; reflexivity).
  assert (Hp : pkl archived_world <> Some (snd (grouped sample_stars)))
    by (vm_compute; discriminate).
  split; [repeat split; assumption|].
  destruct (snapshot_before_publish ascii_lower plain_table publish_args
              sample_env archived_world sample_stars Hs Ht Hp)
    as (_ & _ & H1 & H2).
  split; [exact H1|].
  apply (H2 eq_refl).
Defined.

(** C8, as the claim words it, fails: a publishing run on a repository
    that holds today's archive, with the snapshot of the fetched stars
    already in the store, returns at the no-change error; the
    duplicate-archive error is not reported. *)
Lemma unchanged_run_reports_no_duplicate :
  let r := starred ascii_lower plain_table publish_args sample_env
             unchanged_world in
  remote unchanged_world = Some published_repo
  /\ dict_get (archive_path (today sample_env)) (repo_files published_repo)
     = Some (py "# Awesome Stars")
  /\ fst r = Returned NoChange
  /\ stderr (snd r) = [no_change_msg sample_env]
  /\ ~ In (duplicate_msg sample_env) (stderr (snd r)).
Proof.
  vm_compute. repeat split. intros [H|[]]. discriminate H.
Qed.

(** C5 on the code: [starred --username u --output README.md] with a
    rejected credential.  The run reports the error and returns without
    writing the store, but [README.md], which held a document, is empty:
    it was opened for writing before the stars were asked for. *)
Theorem forbidden_truncates_output :
  let r := starred ascii_lower plain_table local_args forbidden_env
             first_world in
  out_file first_world = Some (py "# My stars")
  /\ fst r = Returned Forbidden
  /\ pkl (snd r) = pkl first_world
  /\ trace (snd r)
     = [ EvOpenW (py "README.md");
         EvStderr (py "Error: talk to Github failed: 403 Bad credentials") ]
  /\ out_file (snd r) = Some []
  /\ out_file (snd r) <> out_file first_world.
Proof. vm_compute. repeat split. discriminate. Qed.

(** The same run when the refusal comes from the lazy iterator, as with
    github3: the exception of line 119 is not caught, nothing is reported,
    and [README.md] is empty all the same. *)
Lemma forbidden_in_loop_truncates_output :
  let r := starred ascii_lower plain_table local_args lazy_forbidden_env
             first_world in
  fst r = Raised ForbiddenError
  /\ stderr (snd r) = []
  /\ pkl (snd r) = pkl first_world
  /\ trace (snd r) = [EvOpenW (py "README.md")]
  /\ out_file (snd r) = Some []
  /\ out_file (snd r) <> out_file first_world.
Proof. vm_compute. repeat split. discriminate. Qed.

(** C6, as the claim words it, fails: after a publishing run that
    succeeds, one that returns at the no-change error and one that raises,
    [sys.stdout] is the buffer and not the stream the run started with. *)
Lemma stdout_not_restored :
  let ok := starred ascii_lower plain_table publish_args sample_env
              first_world in
  let aborted := starred ascii_lower plain_table publish_args sample_env
                   unchanged_world in
  let raised := starred ascii_lower plain_table publish_args sample_env
                  bare_world in
  (fst ok = Ok tt /\ sys_stdout (snd ok) <> sys_stdout first_world)
  /\ (fst aborted = Returned NoChange
      /\ sys_stdout (snd aborted) <> sys_stdout unchanged_world)
  /\ (fst raised = Raised UnprocessableEntity
      /\ sys_stdout (snd raised) <> sys_stdout bare_world).
Proof. vm_compute. repeat split; discriminate. Qed.

(** C9 on the code: [starred --username u --token t --repository stars
    --launch] when the repository holds today's archive.  The run reports
    the duplicate-archive error, writes nothing on the host, and then
    opens the page of the repository in the browser. *)
Theorem launch_after_duplicate_error :
  let r := starred ascii_lower plain_table publish_args sample_env
             archived_world in
  fst r = Ok tt
  /\ remote (snd r) = remote archived_world
  /\ stderr (snd r) = [duplicate_msg sample_env]
  /\ filter (fun ev => negb (is_echo ev)) (trace (snd r))
     = [ EvRedirect; EvPickleDump (snd (grouped sample_stars));
         EvStderr (duplicate_msg sample_env);
         EvLaunch (py "https://github.com/u/stars") ].
Proof. vm_compute. repeat split. Qed.

(* ================================================================== *)
(** ** More on [sorted] and the grouping *)

Set Implicit Arguments.

Section SortedMore.
Variables (A K : Type).
Variable leb : K -> K -> bool.
Variable key : A -> K.
Variable reverse : bool.

(** A list already in the order of the comparison is left as it is. *)
Lemma sorted_id (l : list A) :
  StronglySorted (fun x y => before leb key reverse x y = true) l ->
  sorted leb key reverse l = l.
Proof.
  induction 1 as [|x l Hl IH Hx]; simpl; [reflexivity|].
  rewrite IH. destruct l as [|y l']; [reflexivity|].
  simpl. inversion Hx as [|? ? Hxy _]; subst. rewrite Hxy. reflexivity.
Qed.

(** [sorted] goes through a map that keeps the keys. *)
Lemma sorted_map (B : Type) (key' : B -> K) (f : A -> B) (l : list A) :
  (forall x, key' (f x) = key x) ->
  sorted leb key' reverse (map f l) = map f (sorted leb key reverse l).
Proof.
  intros Hk. induction l as [|x l IH]; simpl; [reflexivity|].
  rewrite IH. generalize (sorted leb key reverse l). intros s.
  induction s as [|y s IHs]; simpl; [reflexivity|].
  unfold before. rewrite !Hk.
  destruct (if reverse then leb (key y) (key x) else leb (key x) (key y));
    simpl; [reflexivity|]. rewrite IHs. reflexivity.
Qed.

Variable idx : A -> nat.
Hypothesis leb_total : forall a b, leb a b = false -> leb b a = true.
Hypothesis leb_trans :
  forall a b c, leb a b = true -> leb b c = true -> leb a c = true.

Let stable (x y : A) : Prop :=
  before leb key reverse x y = true
  /\ (before leb key reverse y x = true -> idx x < idx y).

Lemma insert_stable_keeps_ties (x : A) (l : list A) :
  StronglySorted stable l ->
  Forall (fun y => idx x < idx y) l ->
  StronglySorted stable (insert_stable leb key reverse x l).
Proof.
  induction 1 as [|y l Hl IH Hy]; intros Hx; simpl.
  - repeat constructor.
  - inversion Hx as [|? ? Hxy Hxl]; subst.
    destruct (before leb key reverse x y) eqn:E.
    + constructor; [constructor; assumption|].
      constructor; [split; [exact E | intros _; exact Hxy]|].
      rewrite Forall_forall in *. intros z Hz. split.
      * apply (@before_trans _ _ leb key reverse leb_trans x y z E).
        apply (Hy z Hz).
      * intros _. apply (Hxl z Hz).
    + constructor; [apply IH; assumption|].
      apply (Permutation_Forall
               (Permutation_sym (insert_stable_perm leb key reverse x l))).
      constructor; [|exact Hy]. split.
      * apply (@before_total _ _ leb key reverse leb_total _ _ E).
      * intros H. rewrite H in E. discriminate.
Qed.

(** [sorted] is stable: elements the comparison does not separate stay in
    the order of their indices, when the input is in that order. *)
Lemma sorted_keeps_ties (l : list A) :
  StronglySorted (fun a b => idx a < idx b) l ->
  StronglySorted stable (sorted leb key reverse l).
Proof.
  induction 1 as [|x l Hl IH Hx]; simpl; [constructor|].
  apply insert_stable_keeps_ties; [exact IH|].
  apply sorted_Forall, Hx.
Qed.
End SortedMore.

Unset Implicit Arguments.

Lemma StronglySorted_impl (A : Type) (R S : A -> A -> Prop) (l : list A) :
  (forall x y, R x y -> S x y) -> StronglySorted R l -> StronglySorted S l.
Proof.
  intros H. induction 1 as [|x l Hl IH Hx]; constructor; [exact IH|].
  eapply Forall_impl; [|exact Hx]. intros y. apply H.
Qed.

Lemma StronglySorted_map (A B : Type) (R : B -> B -> Prop) (f : A -> B)
    (l : list A) :
  StronglySorted (fun x y => R (f x) (f y)) l -> StronglySorted R (map f l).
Proof.
  induction 1 as [|x l Hl IH Hx]; simpl; constructor; [exact IH|].
  apply Forall_map. exact Hx.
Qed.

Lemma StronglySorted_NoDup_strict (A : Type) (R : A -> A -> Prop) (l : list A) :
  StronglySorted R l -> NoDup l ->
  StronglySorted (fun x y => R x y /\ x <> y) l.
Proof.
  induction 1 as [|x l Hl IH Hx]; intros Hn; constructor.
  - apply IH. inversion Hn; assumption.
  - inversion Hn as [|? ? Hnotin _]; subst.
    rewrite Forall_forall in *. intros y Hy. split; [apply Hx, Hy|].
    intros ->. contradiction.
Qed.

Lemma grouped_fst (stars : list Star) :
  fst (grouped stars) = sorted_items (fst (collect stars 0 [] [])).
Proof. unfold grouped. destruct (collect stars 0 [] []). reflexivity. Qed.

Lemma grouped_snd (stars : list Star) :
  snd (grouped stars) = sorted_items (snd (collect stars 0 [] [])).
Proof. unfold grouped. destruct (collect stars 0 [] []). reflexivity. Qed.

Lemma grouped_keys_sorted (stars : list Star) :
  StronglySorted (fun x y => str_leb (fst x) (fst y) = true)
                 (fst (grouped stars)).
Proof.
  rewrite grouped_fst. unfold sorted_items.
  apply (sorted_StronglySorted str_leb (@fst str (list Row)) false
           str_leb_total str_leb_trans).
Qed.

(** X1: the groups come in strictly ascending order of their language
    keys (the order of strings), whatever the sort mode, and the sort mode
    does not change the keys. *)
Theorem language_order (sort : SortMode) (stars : list Star) :
  StronglySorted str_lt (map fst (fst (aggregate sort stars)))
  /\ map fst (fst (aggregate sort stars)) = map fst (fst (grouped stars)).
Proof.
  assert (E : map fst (fst (aggregate sort stars))
              = map fst (fst (grouped stars))).
  { rewrite aggregate_fst, map_map. reflexivity. }
  split; [|exact E]. rewrite E.
  apply StronglySorted_NoDup_strict.
  - apply StronglySorted_map, grouped_keys_sorted.
  - apply (grouped_spec stars).
Qed.

(** X15: with sort mode [date] the sort within the groups changes
    nothing: the groups are as the loop built them, in fetch order. *)
Theorem date_mode_is_fetch_order (stars : list Star) :
  fst (aggregate SortDate stars) = fst (grouped stars).
Proof.
  rewrite aggregate_fst.
  destruct (grouped_spec stars) as (_ & _ & Hf & _).
  induction Hf as [|[k g] d [Hs _] Hd IH]; [reflexivity|].
  cbn [map fst snd] in *. rewrite IH. f_equal. f_equal.
  unfold sort_group. apply sorted_id. eapply StronglySorted_impl; [|exact Hs].
  simpl. intros x y H. apply Nat.leb_le. lia.
Qed.

(** X19: with sort mode [name] every group is in non-decreasing order of
    the names, and records of the same name stay in fetch order. *)
Theorem name_ties_keep_fetch_order (stars : list Star) :
  Forall (fun lg => StronglySorted name_then_fetch (snd lg))
         (fst (aggregate SortName stars)).
Proof.
  rewrite aggregate_fst, Forall_map.
  destruct (grouped_spec stars) as (_ & _ & Hf & _).
  eapply Forall_impl; [|exact Hf]. intros lg [Hs _]. simpl.
  eapply StronglySorted_impl;
    [|apply (@sorted_keeps_ties _ _ str_leb r_name false r_order
               str_leb_total str_leb_trans (snd lg) Hs)].
  simpl. intros x y [H1 H2]. split; [exact H1|].
  intros E. apply H2. unfold before. rewrite E.
  destruct (str_leb (r_name y) (r_name y)) eqn:F; [reflexivity|].
  pose proof (str_leb_total _ _ F) as G. congruence.
Qed.

(* ================================================================== *)
(** ** The snapshot *)

Lemma dict_append_reduced (k : str) (r : Row) (d : Dict (list Row)) :
  dict_append k (name_url r) (map reduced d) = map reduced (dict_append k r d).
Proof.
  induction d as [|[k0 g] d IH]; [reflexivity|].
  cbn [map dict_append reduced fst snd].
  destruct (str_eqb k k0); cbn [map]; unfold reduced at 2; cbn [fst snd].
  - rewrite map_app. reflexivity.
  - rewrite <- IH. reflexivity.
Qed.

Lemma collect_reduced (stars : list Star) (n : nat) (d : Dict (list Row)) :
  snd (collect stars n d (map reduced d))
  = map reduced (fst (collect stars n d (map reduced d))).
Proof.
  revert n d; induction stars as [|s rest IH]; intros n d; [reflexivity|].
  cbn [collect].
  change (name s, html_url s) with (name_url (row_of s n)).
  rewrite dict_append_reduced. apply IH.
Qed.

Lemma grouped_snd_reduced (stars : list Star) :
  snd (grouped stars) = map reduced (fst (grouped stars)).
Proof.
  rewrite grouped_snd, grouped_fst.
  pose proof (collect_reduced stars 0 []) as H. cbn [map] in H. rewrite H.
  unfold sorted_items. apply sorted_map. reflexivity.
Qed.

(** X2: the snapshot is the groups reduced to the name and the address
    of every record: the same language keys in the same order, and under
    each key the [(name, url)] pairs of the group in fetch order, whatever
    the sort mode of the run. *)
Theorem snapshot_is_reduced_groups (stars : list Star) :
  snd (grouped stars) = map reduced (fst (grouped stars))
  /\ map fst (snd (grouped stars)) = map fst (fst (grouped stars))
  /\ Forall (fun lg => fetch_ordered (List.length stars) (snd lg))
            (fst (grouped stars)).
Proof.
  split; [apply grouped_snd_reduced|]. split.
  - rewrite grouped_snd_reduced, map_map. reflexivity.
  - apply (grouped_spec stars).
Qed.

Lemma collect_snd_identity (stars1 stars2 : list Star) (n1 n2 : nat)
    (d1 d2 : Dict (list Row)) (nd : Snapshot) :
  map identity_of stars1 = map identity_of stars2 ->
  snd (collect stars1 n1 d1 nd) = snd (collect stars2 n2 d2 nd).
Proof.
  revert stars2 n1 n2 d1 d2 nd.
  induction stars1 as [|s1 rest1 IH]; intros [|s2 rest2] n1 n2 d1 d2 nd H;
    try discriminate; [reflexivity|].
  cbn [map] in H. unfold identity_of in H at 1 3.
  injection H as Hl Hn Hu Hrest. cbn [collect].
  rewrite Hl, Hn, Hu. apply IH. exact Hrest.
Qed.

(** X3: the snapshot reads only the language key, the name and the
    address of the records: two fetches that agree on these, record by
    record, give the same snapshot, whatever the descriptions, owners and
    star counts are. *)
Theorem snapshot_ignores_metadata (stars1 stars2 : list Star) :
  map identity_of stars1 = map identity_of stars2 ->
  snd (grouped stars1) = snd (grouped stars2).
Proof.
  intros H. rewrite !grouped_snd.
  rewrite (collect_snd_identity stars1 stars2 0 0 [] [] [] H). reflexivity.
Qed.

Lemma snapshot_ignores_metadata_witness :
  map identity_of sample_stars
  = map identity_of
      [ mkStar "b" (Some (py "Go")) 21; mkStar "a" (Some (py "C#")) 0;
        mkStar "c" (Some []) 5 ]
  /\ snd (grouped sample_stars)
     = snd (grouped [ mkStar "b" (Some (py "Go")) 21;
                      mkStar "a" (Some (py "C#")) 0;
                      mkStar "c" (Some []) 5 ]).
Proof.
  split; [reflexivity|].
  apply (snapshot_ignores_metadata sample_stars
           [ mkStar "b" (Some (py "Go")) 21; mkStar "a" (Some (py "C#")) 0;
             mkStar "c" (Some []) 5 ]).
  reflexivity.
Defined.

Lemma concat_reduced (d : Dict (list Row)) :
  List.concat (map snd (map reduced d))
  = map name_url (List.concat (map snd d)).
Proof.
  induction d as [|[k g] d IH]; [reflexivity|].
  cbn [map reduced fst snd List.concat]. rewrite map_app, IH. reflexivity.
Qed.

Lemma rows_from_name_url (stars : list Star) (n : nat) :
  map name_url (rows_from stars n)
  = map (fun s => (name s, html_url s)) stars.
Proof.
  revert n; induction stars as [|s rest IH]; intros n; [reflexivity|].
  cbn [rows_from map]. rewrite IH. reflexivity.
Qed.

(** X4: the snapshot holds the [(name, url)] pair of every fetched record
    exactly once: all its lists together are a permutation of the pairs
    of the fetch. *)
Theorem snapshot_complete (stars : list Star) :
  Permutation (List.concat (map snd (snd (grouped stars))))
              (map (fun s => (name s, html_url s)) stars).
Proof.
  rewrite grouped_snd_reduced, concat_reduced.
  rewrite <- (rows_from_name_url stars 0).
  apply Permutation_map. apply (grouped_spec stars).
Qed.

(* ================================================================== *)
(** ** Escaping and stripping *)

Lemma flat_map_escape_app (a b : str) :
  flat_map escape_lt_gt (a ++ b)
  = flat_map escape_lt_gt a ++ flat_map escape_lt_gt b.
Proof. apply flat_map_app. Qed.

Lemma escape_lt_gt_not_angle (c : char) :
  Forall (fun x => not_angle x = true) (escape_lt_gt c).
Proof.
  unfold escape_lt_gt.
  destruct (N.eqb c (chr "<")) eqn:E1; [repeat constructor|].
  destruct (N.eqb c (chr ">")) eqn:E2; [repeat constructor|].
  constructor; [|constructor]. unfold not_angle. rewrite E1, E2. reflexivity.
Qed.

Lemma escape_lt_gt_other (c : char) :
  not_angle c = true -> escape_lt_gt c = [c].
Proof.
  unfold not_angle, escape_lt_gt. intros H.
  apply negb_true_iff, orb_false_iff in H. destruct H as [-> ->]. reflexivity.
Qed.

Lemma html_escape_not_angle (text : str) :
  Forall (fun c => not_angle c = true) (html_escape text).
Proof.
  rewrite html_escape_flat_map.
  induction text as [|c text IH]; [constructor|].
  cbn [flat_map]. apply Forall_app. split; [apply escape_lt_gt_not_angle|].
  exact IH.
Qed.

(** X14: [html_escape] works piece by piece, its result holds no [<] and
    no [>], and a text without them is returned as it is. *)
Theorem html_escape_facts :
  (forall a b, html_escape (a ++ b) = html_escape a ++ html_escape b)
  /\ (forall text, Forall (fun c => not_angle c = true) (html_escape text))
  /\ (forall text,
        html_escape (filter not_angle text) = filter not_angle text).
Proof.
  split; [|split].
  - intros a b. rewrite !html_escape_flat_map. apply flat_map_app.
  - exact html_escape_not_angle.
  - intros text. rewrite html_escape_flat_map.
    induction text as [|c text IH]; [reflexivity|].
    cbn [filter]. destruct (not_angle c) eqn:E; [|exact IH].
    cbn [flat_map]. rewrite (escape_lt_gt_other c E), IH. reflexivity.
Qed.

Lemma lstrip_Forall (P : char -> Prop) (s : str) :
  Forall P s -> Forall P (lstrip s).
Proof.
  induction 1 as [|c s Hc Hs IH]; simpl; [constructor|].
  destruct (isspace c); [exact IH | constructor; assumption].
Qed.

Lemma strip_Forall (P : char -> Prop) (s : str) :
  Forall P s -> Forall P (strip s).
Proof.
  intros H. unfold strip, rstrip.
  apply Forall_rev, lstrip_Forall, Forall_rev, lstrip_Forall, H.
Qed.

Lemma lstrip_head (s : str) :
  match lstrip s with c :: _ => isspace c = false | [] => True end.
Proof.
  induction s as [|c s IH]; simpl; [exact I|].
  destruct (isspace c) eqn:E; [exact IH | exact E].
Qed.

Lemma lstrip_snoc (s : str) (c : char) :
  isspace c = false -> lstrip (s ++ [c]) = lstrip s ++ [c].
Proof.
  intros Hc. induction s as [|x s IH]; simpl.
  - rewrite Hc. reflexivity.
  - destruct (isspace x); [exact IH | reflexivity].
Qed.

Lemma rstrip_cons (c : char) (s : str) :
  isspace c = false -> rstrip (c :: s) = c :: rstrip s.
Proof.
  intros Hc. unfold rstrip. cbn [rev].
  rewrite (lstrip_snoc (rev s) c Hc), rev_app_distr. reflexivity.
Qed.

(** The result of [strip] neither starts nor ends with white space. *)
Lemma strip_ends (s : str) :
  match strip s with c :: _ => isspace c = false | [] => True end
  /\ match rev (strip s) with c :: _ => isspace c = false | [] => True end.
Proof.
  unfold strip. split.
  - pose proof (lstrip_head s) as H. destruct (lstrip s) as [|c t]; [exact I|].
    rewrite (rstrip_cons c t H). exact H.
  - unfold rstrip. rewrite rev_involutive. apply lstrip_head.
Qed.

(** X13: the description stored in a row holds no [<], no [>] and no
    newline character, and neither starts nor ends with white space. *)
Theorem description_is_cell_safe (s : Star) (n : nat) :
  Forall cell_safe (r_description (row_of s n))
  /\ match r_description (row_of s n) with
     | c :: _ => isspace c = false
     | [] => True
     end
  /\ match rev (r_description (row_of s n)) with
     | c :: _ => isspace c = false
     | [] => True
     end.
Proof.
  cbn [r_description row_of]. unfold description_of.
  split; [|apply strip_ends].
  apply strip_Forall.
  destruct (description s) as [d|]; [|constructor].
  destruct (truthy d); [|constructor].
  rewrite drop_newlines. apply Forall_forall. intros c Hc.
  apply filter_In in Hc. destruct Hc as [Hin Hnl].
  pose proof (html_escape_not_angle d) as Ha.
  rewrite Forall_forall in Ha. specialize (Ha c Hin).
  unfold not_angle in Ha. apply negb_true_iff, orb_false_iff in Ha.
  destruct Ha as [H1 H2]. apply N.eqb_neq in H1, H2.
  apply negb_true_iff, N.eqb_neq in Hnl.
  repeat split; assumption.
Qed.

(* ================================================================== *)
(** ** The document *)

Lemma split_from_no_space (cur s : str) :
  Forall (fun c => isspace c = false) cur ->
  Forall (Forall (fun c => isspace c = false)) (split_from cur s).
Proof.
  revert cur; induction s as [|c s IH]; intros cur Hcur; simpl.
  - destruct cur; [constructor|]. constructor; [|constructor].
    apply Forall_rev, Hcur.
  - destruct (isspace c) eqn:E.
    + destruct cur; [apply IH; constructor|].
      constructor; [apply Forall_rev, Hcur | apply IH; constructor].
    + apply IH. constructor; assumption.
Qed.

Lemma join_Forall (P : char -> Prop) (sep : str) (parts : list str) :
  Forall P sep -> Forall (Forall P) parts -> Forall P (join sep parts).
Proof.
  intros Hsep. induction 1 as [|p rest Hp Hrest IH]; [constructor|].
  cbn [join]. destruct rest as [|q rest']; [exact Hp|].
  apply Forall_app. split; [exact Hp|].
  apply Forall_app. split; [exact Hsep | exact IH].
Qed.

(** X18: the anchor of a contents line holds no white space, whatever the
    language name is and whatever [str.lower] makes of it: the line is
    [  - [language(count)](#anchor-count)] with the pieces of the lowered
    name joined by [-]. *)
Theorem anchor_has_no_space (lower : str -> str) (language : str)
    (count : nat) :
  contents_line lower language count
  = py "  - [" ++ language ++ py "(" ++ str_of_nat count ++ py ")](#"
    ++ anchor lower language ++ py "-" ++ str_of_nat count ++ py ")"
  /\ Forall (fun c => isspace c = false) (anchor lower language).
Proof.
  split; [reflexivity|]. unfold anchor. apply join_Forall.
  - repeat constructor.
  - apply split_from_no_space. constructor.
Qed.

Lemma info_rows_nth (g : list Row) (start i : nat) :
  nth_error (info_rows start g) i
  = option_map (info_row (start + i)) (nth_error g i).
Proof.
  revert start i; induction g as [|r g IH]; intros start [|i];
    cbn [info_rows nth_error option_map]; try reflexivity.
  - rewrite Nat.add_0_r. reflexivity.
  - rewrite IH. replace (S start + i) with (start + S i) by lia. reflexivity.
Qed.

(** X17: the table of a group has one row per record, in the order of the
    group: the row at position [i] (from 0) carries the index [i + 1], the
    link [[name](url)], the description, the owner and the star count of
    the record at position [i]. *)
Theorem table_rows (g : list Row) (i : nat) :
  nth_error (info_rows 0 g) i = option_map (info_row i) (nth_error g i)
  /\ List.length (info_rows 0 g) = List.length g.
Proof.
  split; [apply (info_rows_nth g 0 i) | apply info_rows_length].
Qed.

Lemma dict_get_In (V : Type) (d : Dict V) (k : str) (v : V) :
  NoDup (map fst d) -> In (k, v) d -> dict_get k d = Some v.
Proof.
  induction d as [|[k0 v0] d IH]; intros Hn Hin; [destruct Hin|].
  cbn [dict_get]. inversion Hn as [|? ? Hnotin Hn']; subst.
  destruct Hin as [E|Hin].
  - inversion E; subst. rewrite str_eqb_refl. reflexivity.
  - destruct (str_eqb k k0) eqn:E; [|apply IH; assumption].
    apply str_eqb_eq in E; subst. exfalso. apply Hnotin.
    apply (in_map fst _ _ Hin).
Qed.

Lemma aggregate_keys_sorted (sort : SortMode) (stars : list Star) :
  StronglySorted (fun x y => str_leb (fst x) (fst y) = true)
                 (fst (aggregate sort stars)).
Proof.
  rewrite aggregate_fst.
  pose proof (grouped_keys_sorted stars) as H.
  induction H as [|x l Hl IH Hx]; simpl; constructor; [exact IH|].
  apply Forall_map. exact Hx.
Qed.

Lemma aggregate_keys_NoDup (sort : SortMode) (stars : list Star) :
  NoDup (map fst (fst (aggregate sort stars))).
Proof.
  rewrite aggregate_fst, map_map. simpl. apply (grouped_spec stars).
Qed.

Section DocumentFacts.
Variable lower : str -> str.
Variable GithubFlavoredMarkdownTable : list (list Cell) -> str.

Lemma section_msgs_of_group (type : OutputType) (d : Dict (list Row))
    (lg : str * list Row) :
  NoDup (map fst d) -> In lg d ->
  section_msgs GithubFlavoredMarkdownTable type d
    (fst lg, info_rows 0 (snd lg))
  = section_of GithubFlavoredMarkdownTable type lg.
Proof.
  intros Hn Hin. destruct lg as [k g]. unfold section_msgs, section_of.
  cbn [fst snd]. rewrite info_rows_length.
  unfold dict_item. rewrite (dict_get_In _ d k g Hn Hin). reflexivity.
Qed.

(** X16: for the groups of the aggregation, the document is the header,
    one contents line per group, an empty line, one section per group and
    the licence; the sections come in the order of the groups, which is
    the order of the contents lines (sorting the table data again by
    language changes nothing), and the section of a group shows the
    records of that group: the heading with the size of the group, then
    the table of its rows or one list line per record, then an empty
    line. *)
Theorem sections_follow_groups (sort : SortMode) (stars : list Star)
    (total : nat) (today username : str) (type : OutputType) :
  let d := fst (aggregate sort stars) in
  render lower GithubFlavoredMarkdownTable d total today username type
  = [desc (count_badge (str_of_nat total) (py "green"))
          (date_badge (replace today (py "-") (py "--")) (py "blue"))]
    ++ map (fun lg => contents_line lower (fst lg) (List.length (snd lg))) d
    ++ [[]]
    ++ List.concat (map (section_of GithubFlavoredMarkdownTable type) d)
    ++ [license_ username].
Proof.
  intros d. unfold render.
  assert (E : sorted_items (map (fun lg => (fst lg, info_rows 0 (snd lg))) d)
              = map (fun lg => (fst lg, info_rows 0 (snd lg))) d).
  { unfold sorted_items. apply sorted_id. unfold before.
    pose proof (aggregate_keys_sorted sort stars) as H. fold d in H.
    induction H as [|x l Hl IH Hx]; simpl; constructor; [exact IH|].
    apply Forall_map. exact Hx. }
  rewrite E, map_map. do 3 f_equal. f_equal. f_equal.
  apply map_ext_in. intros lg Hin.
  apply section_msgs_of_group; [apply aggregate_keys_NoDup | exact Hin].
Qed.

End DocumentFacts.

(* ================================================================== *)
(** ** More on the run *)

Lemma store_differs_false (w : World) (new_dict : Snapshot) :
  store_differs w new_dict = false <-> pkl w = Some new_dict.
Proof.
  unfold store_differs. destruct (pkl w) as [old|]; [|split; discriminate].
  rewrite negb_false_iff, snapshot_eqb_eq. split; congruence.
Qed.

Lemma store_differs_true (w : World) (new_dict : Snapshot) :
  store_differs w new_dict = true <-> pkl w <> Some new_dict.
Proof.
  rewrite <- store_differs_false. destruct (store_differs w new_dict);
    split; congruence.
Qed.

(** What [click.echo] leaves where, by target. *)
Lemma echo_all_text (sink : Sink) (msgs : list str) (w : World) :
  let w' := snd (echo_all sink msgs w) in
  match sink, sys_stdout w with
  | ToFile, _ =>
      console w' = console w /\ repo_file w' = repo_file w
      /\ (forall c, out_file w = Some c ->
                    out_file w' = Some (c ++ echoed_text false msgs))
  | ToStdout, Console =>
      console w' = console w ++ echoed_text (console_isatty w) msgs
      /\ repo_file w' = repo_file w /\ out_file w' = out_file w
  | ToStdout, Buffer =>
      repo_file w' = repo_file w ++ echoed_text false msgs
      /\ console w' = console w /\ out_file w' = out_file w
  end.
Proof.
  revert w; induction msgs as [|m rest IH]; intros w.
  - cbn. destruct sink; [|destruct (sys_stdout w)];
      rewrite ?app_nil_r; repeat split; auto.
    intros c Hc. rewrite app_nil_r. exact Hc.
  - cbn [echo_all]. unfold bind. cbn [echo].
    match goal with |- context [echo_all sink rest ?w1] =>
      specialize (IH w1); set (w2 := snd (echo_all sink rest w1)) in * end.
    cbn zeta in IH.
    assert (Ec : forall b, echoed_text b (m :: rest)
                           = echo_out b m ++ echoed_text b rest)
      by reflexivity.
    rewrite !Ec.
    destruct sink.
    + cbn [sys_stdout log set_out_file console repo_file out_file] in IH.
      assert (IH' : console w2 = console w /\ repo_file w2 = repo_file w
                    /\ forall c, Some (match out_file w with
                                       | Some c0 => c0 | None => [] end
                                       ++ echo_out false m) = Some c ->
                                 out_file w2
                                 = Some (c ++ echoed_text false rest))
        by (destruct (sys_stdout w); exact IH).
      destruct IH' as (I1 & I2 & I3).
      assert (G : console w2 = console w /\ repo_file w2 = repo_file w
                  /\ forall c, out_file w = Some c ->
                       out_file w2
                       = Some (c ++ echo_out false m
                                 ++ echoed_text false rest)).
      { split; [exact I1|]. split; [exact I2|]. intros c Hc.
        rewrite (I3 _ eq_refl), Hc, <- app_assoc. reflexivity. }
      destruct (sys_stdout w); exact G.
    + destruct (sys_stdout w) eqn:E;
        cbn [sys_stdout log set_console set_repo_file console repo_file
             out_file console_isatty] in IH; rewrite E in IH;
        destruct IH as (I1 & I2 & I3); rewrite I1, I2, I3, <- app_assoc;
        auto.
Qed.

Lemma ansi_length_no_escape (s : str) : no_escape s -> ansi_length s = None.
Proof.
  intros H. destruct s as [|c t]; [reflexivity|].
  inversion H as [|? ? Hc _]; subst.
  unfold ansi_length. destruct (N.eqb_spec c 27) as [->|Hne]; [congruence|].
  destruct c as [|p]; [reflexivity|].
  do 5 (destruct p as [p|p|]; try reflexivity); congruence.
Qed.

(** [strip_ansi] leaves a text without the escape character as it is. *)
Lemma strip_ansi_no_escape (s : str) : no_escape s -> strip_ansi s = s.
Proof.
  unfold strip_ansi. induction s as [|c t IH]; intros H; [reflexivity|].
  cbn [strip_ansi_from]. rewrite (ansi_length_no_escape _ H).
  inversion H; subst. rewrite IH by assumption. reflexivity.
Qed.

(** A document without the escape character is written as it is, to any
    target. *)
Lemma echoed_text_no_escape (keep_ansi : bool) (msgs : list str) :
  Forall no_escape msgs -> echoed_text keep_ansi msgs = document_text msgs.
Proof.
  unfold echoed_text, document_text. induction 1 as [|m rest Hm Hrest IH];
    [reflexivity|].
  cbn [map List.concat]. rewrite IH. f_equal.
  unfold echo_out. destruct keep_ansi; [reflexivity|].
  apply strip_ansi_no_escape. apply Forall_app. split; [exact Hm|].
  repeat constructor. discriminate.
Qed.

Section MoreRunFacts.
Variable lower : str -> str.
Variable GithubFlavoredMarkdownTable : list (list Cell) -> str.

Let run := starred lower GithubFlavoredMarkdownTable.

(** The messages of the document of a run on [stars]. *)
Let msgs (a : Args) (e : Env) (stars : list Star) : list str :=
  render lower GithubFlavoredMarkdownTable
    (fst (aggregate (sort a) stars)) (snd (aggregate (sort a) stars))
    (today e) (username a) (type a).

Lemma compare_and_save_eq (repo_file : bool) (today : str)
    (new_dict : Snapshot) (w : World) :
  compare_and_save repo_file today new_dict w
  = if store_differs w new_dict
    then (Ok tt, log (EvPickleDump new_dict) (set_pkl (Some new_dict) w))
    else if repo_file
         then (Returned NoChange,
               log (EvStderr
                      (py "Error: starred repositories not change in "
                       ++ today))
                 (set_stderr
                    (stderr w
                     ++ [py "Error: starred repositories not change in "
                         ++ today]) w))
         else (Ok tt, w).
Proof.
  unfold compare_and_save, store_differs, bind, pickle_load.
  destruct (pkl w) as [old|]; [|reflexivity].
  destruct (snapshot_eqb old new_dict); [|reflexivity].
  destruct repo_file; reflexivity.
Qed.

Lemma after_setup_pkl (a : Args) (w : World) : pkl (after_setup a w) = pkl w.
Proof. apply (after_setup_frame a w). Qed.

Lemma after_setup_differs (a : Args) (w : World) (new_dict : Snapshot) :
  store_differs (after_setup a w) new_dict = store_differs w new_dict.
Proof. unfold store_differs. rewrite after_setup_pkl. reflexivity. Qed.

(** A run without repository goes through: it renders from
    [after_compare]. *)
Lemma run_local_eq (a : Args) (e : Env) (w : World) (stars : list Star) :
  starred_by e = inr stars ->
  truthy (repository a) = false ->
  run a e w
  = (Ok tt,
     snd (echo_all (sink_of a) (msgs a e stars)
            (after_compare a w (snd (grouped stars))))).
Proof.
  intros Hs Hr. unfold run, msgs.
  assert (Ht : token_ok a) by (unfold token_ok; congruence).
  rewrite (@starred_after_setup lower GithubFlavoredMarkdownTable a e w
             stars Hs Ht).
  unfold bind. rewrite compare_and_save_eq, after_setup_differs, Hr.
  unfold after_compare.
  destruct (store_differs w (snd (grouped stars)));
    match goal with |- context [echo_all ?s ?m ?w1] =>
      pose proof (echo_all_ok s m w1) as E0;
      destruct (echo_all s m w1) as [r2 w2] end;
    simpl in E0; subst r2; reflexivity.
Qed.

(** A run with repository and token publishes from [after_compare], or
    returns at the no-change error. *)
Lemma run_publish_eq (a : Args) (e : Env) (w : World) (stars : list Star) :
  starred_by e = inr stars ->
  truthy (repository a) = true ->
  opt_truthy (token a) = true ->
  run a e w
  = if store_differs w (snd (grouped stars))
    then publish a e
           (snd (echo_all (sink_of a) (msgs a e stars)
                   (after_compare a w (snd (grouped stars)))))
    else (Returned NoChange,
          log (EvStderr (no_change_msg e))
            (set_stderr (stderr (after_setup a w) ++ [no_change_msg e])
               (after_setup a w))).
Proof.
  intros Hs Hr Ht. unfold run, msgs.
  rewrite (@starred_after_setup lower GithubFlavoredMarkdownTable a e w
             stars Hs (fun _ => Ht)).
  unfold bind. rewrite compare_and_save_eq, after_setup_differs, Hr.
  unfold after_compare.
  destruct (store_differs w (snd (grouped stars))); [|reflexivity].
  match goal with |- context [echo_all ?s ?m ?w1] =>
    pose proof (echo_all_ok s m w1) as E0;
    destruct (echo_all s m w1) as [r2 w2] end.
  simpl in E0; subst r2; reflexivity.
Qed.

Lemma after_compare_frame (a : Args) (w : World) (new_dict : Snapshot) :
  let w' := after_compare a w new_dict in
  pkl w' = Some new_dict
  /\ stderr w' = stderr w /\ remote w' = remote w /\ console w' = console w
  /\ sys_stdout w' = (if truthy (repository a) then Buffer else sys_stdout w)
  /\ out_file w'
     = (if truthy (strip (output a)) then Some [] else out_file w)
  /\ repo_file w' = (if truthy (repository a) then [] else repo_file w)
  /\ trace w'
     = trace w ++ setup_events a
       ++ (if store_differs w new_dict then [EvPickleDump new_dict] else []).
Proof.
  unfold after_compare, after_setup, setup_events.
  destruct (store_differs w new_dict) eqn:D.
  - destruct (truthy (strip (output a))); destruct (truthy (repository a));
      cbn; rewrite <- ?app_assoc, ?app_nil_r; repeat split; reflexivity.
  - apply store_differs_false in D.
    destruct (truthy (strip (output a))); destruct (truthy (repository a));
      cbn; rewrite <- ?app_assoc, ?app_nil_r; repeat split;
      try reflexivity; exact D.
Qed.

Lemma after_compare_isatty (a : Args) (w : World) (new_dict : Snapshot) :
  console_isatty (after_compare a w new_dict) = console_isatty w.
Proof.
  unfold after_compare, after_setup.
  destruct (store_differs w new_dict); destruct (truthy (strip (output a)));
    destruct (truthy (repository a)); reflexivity.
Qed.

Lemma run_store (a : Args) (e : Env) (w : World) (stars : list Star) :
  starred_by e = inr stars ->
  token_ok a ->
  pkl (snd (run a e w)) = Some (snd (grouped stars)).
Proof.
  intros Hs Ht.
  destruct (after_compare_frame a w (snd (grouped stars))) as (C1 & _).
  destruct (truthy (repository a)) eqn:Hr.
  - rewrite (run_publish_eq a e w stars Hs Hr (Ht Hr)).
    destruct (store_differs w (snd (grouped stars))) eqn:D.
    + match goal with |- context [echo_all ?s ?m ?w1] =>
        destruct (echo_all_frame s m w1) as (E1 & _);
        destruct (keeps_publish a e (snd (echo_all s m w1))) as (K1 & _) end.
      cbn zeta in E1. rewrite K1, E1. exact C1.
    + apply store_differs_false in D. cbn. rewrite after_setup_pkl. exact D.
  - rewrite (run_local_eq a e w stars Hs Hr). cbn [snd].
    match goal with |- context [echo_all ?s ?m ?w1] =>
      destruct (echo_all_frame s m w1) as (E1 & _) end.
    cbn zeta in E1. rewrite E1. exact C1.
Qed.

(** X5: after a run that gets the stars (with a token when it
    publishes), the store holds the snapshot of these stars, however the
    run ends: an equal snapshot is left, any other is replaced before the
    document is rendered. *)
Theorem store_after_run (a : Args) (e : Env) (w : World) (stars : list Star) :
  starred_by e = inr stars ->
  token_ok a ->
  pkl (snd (run a e w)) = Some (snd (grouped stars)).
Proof. exact (run_store a e w stars). Qed.

(** X21: a run repeated on the same stars does not write the store
    again: after a first run that gets the stars, however it ended, the
    second run has no write of the store among its events and leaves the
    store as the first run left it. *)
Theorem second_run_writes_no_store (a : Args) (e : Env) (w : World)
    (stars : list Star) :
  starred_by e = inr stars ->
  token_ok a ->
  let w1 := snd (run a e w) in
  pkl (snd (run a e w1)) = pkl w1
  /\ exists evs,
       trace (snd (run a e w1)) = trace w1 ++ evs
       /\ forallb (fun ev => negb (is_pickle_dump ev)) evs = true.
Proof.
  intros Hs Ht w1.
  pose proof (run_store a e w stars Hs Ht) as H1. fold w1 in H1.
  split; [rewrite H1; apply (run_store a e w1 stars Hs Ht)|].
  assert (D : store_differs w1 (snd (grouped stars)) = false)
    by (apply store_differs_false; exact H1).
  destruct (after_compare_frame a w1 (snd (grouped stars)))
    as (_ & _ & _ & _ & _ & _ & _ & C8).
  rewrite D, app_nil_r in C8.
  assert (Q : forallb (fun ev => negb (is_pickle_dump ev)) (setup_events a)
              = true).
  { unfold setup_events.
    destruct (truthy (strip (output a))); destruct (truthy (repository a));
      reflexivity. }
  destruct (truthy (repository a)) eqn:Hr.
  - rewrite (run_publish_eq a e w1 stars Hs Hr (Ht Hr)), D.
    destruct (after_setup_frame a w1) as (_ & _ & _ & _ & S5).
    cbn. rewrite S5, <- app_assoc. eexists. split; [reflexivity|].
    rewrite forallb_app, Q. reflexivity.
  - rewrite (run_local_eq a e w1 stars Hs Hr). cbn [snd].
    match goal with |- context [echo_all ?s ?m ?w2] =>
      destruct (echo_all_frame s m w2) as (_ & _ & _ & _ & E5) end.
    cbn zeta in E5. rewrite E5, C8, <- app_assoc.
    eexists. split; [reflexivity|].
    rewrite forallb_app, Q. cbn [andb].
    generalize (msgs a e stars). intros l.
    induction l as [|m rest IH]; [reflexivity | exact IH].
Qed.

End MoreRunFacts.

Lemma dict_get_set (V : Type) (k k' : str) (v : V) (d : Dict V) :
  dict_get k (dict_set k' v d)
  = if str_eqb k k' then Some v else dict_get k d.
Proof.
  induction d as [|[k0 v0] d IH]; cbn [dict_set dict_get].
  - reflexivity.
  - destruct (str_eqb k' k0) eqn:E; cbn [dict_get].
    + apply str_eqb_eq in E; subst. destruct (str_eqb k k0); reflexivity.
    + rewrite IH. destruct (str_eqb k k0) eqn:E0; [|reflexivity].
      destruct (str_eqb k k') eqn:E1; [|reflexivity].
      apply str_eqb_eq in E0, E1. subst.
      rewrite str_eqb_refl in E. discriminate.
Qed.

Lemma dict_get_app (V : Type) (k : str) (d d' : Dict V) :
  dict_get k (d ++ d')
  = match dict_get k d with Some v => Some v | None => dict_get k d' end.
Proof.
  induction d as [|[k0 v0] d IH]; cbn [app dict_get]; [reflexivity|].
  destruct (str_eqb k k0); [reflexivity | exact IH].
Qed.

Section SameLocal.

Lemma same_local_refl (w : World) : same_local w w.
Proof. repeat split. Qed.

Lemma same_local_trans (w1 w2 w3 : World) :
  same_local w1 w2 -> same_local w2 w3 -> same_local w1 w3.
Proof.
  intros (H1 & H2 & H3) (K1 & K2 & K3). repeat split; congruence.
Qed.

Lemma local_secho_err (msg : str) : keeps same_local (secho_err msg).
Proof. intros w. repeat split. Qed.

Lemma local_getvalue : keeps same_local getvalue.
Proof. intros w. repeat split. Qed.

Lemma local_gh_repository : keeps same_local gh_repository.
Proof.
  intros w. unfold gh_repository. destruct (remote w); repeat split.
Qed.

Lemma local_file_contents (path : str) : keeps same_local (file_contents path).
Proof.
  intros w. unfold file_contents. destruct (remote w) as [r|];
    [destruct (dict_get (norm_path path) (repo_files r))|]; repeat split.
Qed.

Lemma local_readme_update (message content : str) :
  keeps same_local (readme_update message content).
Proof.
  intros w. unfold readme_update. destruct (remote w); repeat split.
Qed.

Lemma local_create_file (path message content : str) :
  keeps same_local (create_file path message content).
Proof.
  intros w. unfold create_file. destruct (remote w) as [r|];
    [destruct (dict_get (norm_path path) (repo_files r))|]; repeat split.
Qed.

Lemma local_create_repository (url name descr : str) :
  keeps same_local (create_repository url name descr).
Proof.
  intros w. unfold create_repository. destruct (remote w); repeat split.
Qed.

Lemma local_click_launch (url : str) : keeps same_local (click_launch url).
Proof. intros w. repeat split. Qed.

(** Publishing changes neither the console text, nor the output file, nor
    the buffer. *)
Lemma local_publish (a : Args) (e : Env) : keeps same_local (publish a e).
Proof.
  unfold publish, rep_readme.
  repeat first
    [ apply (@keeps_bind same_local same_local_trans)
    | apply (@keeps_try same_local same_local_trans)
    | apply (@keeps_ret same_local same_local_refl)
    | apply local_secho_err | apply local_getvalue
    | apply local_gh_repository | apply local_file_contents
    | apply local_readme_update | apply local_create_file
    | apply local_create_repository | apply local_click_launch
    | match goal with
      | |- forall _, _ => intro
      | |- keeps _ (if ?b then _ else _) => destruct b
      end ].
Qed.

End SameLocal.

Lemma archive_not_in_new_repo (today x : str) :
  dict_get (archive_path today) [(README, x)] = None.
Proof. reflexivity. Qed.

(** Publishing when the host has no such repository. *)
Lemma publish_create (a : Args) (e : Env) (w : World) :
  remote w = None ->
  fst (publish a e w) = Ok tt
  /\ remote (snd (publish a e w))
     = Some {| repo_url := created_url e;
               repo_files := [ (README, repo_file w);
                               (archive_path (today e), repo_file w) ] |}
  /\ trace (snd (publish a e w))
     = trace w
       ++ [ EvCreateRepository (repository a)
              (py "A curated list of my GitHub stars!");
            EvCreateFile README (py "Add starred " ++ today e) (repo_file w);
            EvCreateFile (archive_path (today e))
              (py "Archive starred " ++ today e) (repo_file w) ]
       ++ (if launch a then [EvLaunch (created_url e)] else []).
Proof.
  intros Hr. destruct w as [o p so c rf se rem tr tty]. cbn in Hr. subst rem.
  unfold publish, try_except, bind, gh_repository, create_repository,
    create_file, getvalue, click_launch, emit, ret.
  cbn [remote log set_remote repo_file trace fst snd exn_eqb repo_files
       repo_url out_file pkl sys_stdout console stderr].
  change (norm_path README) with README.
  change (norm_path (archive_path (today e))) with (archive_path (today e)).
  cbn [dict_get].
  cbn [remote log set_remote repo_file trace fst snd exn_eqb repo_files
       repo_url out_file pkl sys_stdout console stderr app].
  rewrite archive_not_in_new_repo.
  destruct (launch a);
    cbn [remote log set_remote repo_file trace fst snd app];
    rewrite <- ?app_assoc; repeat split.
Qed.

(** Publishing to a repository with a readme and without today's
    archive. *)
Lemma publish_update (a : Args) (e : Env) (w : World) (r : Repo)
    (old : str) :
  remote w = Some r ->
  dict_get (archive_path (today e)) (repo_files r) = None ->
  dict_get README (repo_files r) = Some old ->
  fst (publish a e w) = Ok tt
  /\ remote (snd (publish a e w))
     = Some {| repo_url := repo_url r;
               repo_files :=
                 dict_set README (repo_file w) (repo_files r)
                 ++ [(archive_path (today e), repo_file w)] |}
  /\ trace (snd (publish a e w))
     = trace w
       ++ [ EvReadmeUpdate (commit_message a e) (repo_file w);
            EvCreateFile (archive_path (today e))
              (py "Archive starred " ++ today e) (repo_file w) ]
       ++ (if launch a then [EvLaunch (repo_url r)] else []).
Proof.
  intros Hr Ha Hreadme.
  assert (Hnew : dict_get (archive_path (today e))
                   (dict_set README (repo_file w) (repo_files r)) = None).
  { rewrite dict_get_set. exact Ha. }
  destruct w as [o p so c rf se rem tr tty]. cbn [remote repo_file] in Hr, Hnew |- *.
  subst rem.
  unfold publish, try_except, bind, gh_repository, rep_readme, file_contents,
    getvalue, readme_update, create_file, click_launch, emit, ret.
  fold (commit_message a e).
  cbn [remote log set_remote repo_file trace fst snd exn_eqb repo_files
       repo_url out_file pkl sys_stdout console stderr].
  change (norm_path (py "/" ++ archive_path (today e)))
    with (archive_path (today e)).
  change (norm_path README) with README.
  change (norm_path (archive_path (today e))) with (archive_path (today e)).
  rewrite Ha.
  cbn [remote log set_remote repo_file trace fst snd exn_eqb repo_files
       repo_url out_file pkl sys_stdout console stderr].
  rewrite Hreadme.
  cbn [remote log set_remote repo_file trace fst snd exn_eqb repo_files
       repo_url out_file pkl sys_stdout console stderr].
  rewrite Hnew.
  destruct (launch a);
    cbn [remote log set_remote repo_file trace fst snd app];
    rewrite <- ?app_assoc; repeat split.
Qed.

(* ================================================================== *)
(** ** Where the document goes and what a run leaves alone *)

Section RunExtras.
Variable lower : str -> str.
Variable GithubFlavoredMarkdownTable : list (list Cell) -> str.

Let run := starred lower GithubFlavoredMarkdownTable.

Let msgs (a : Args) (e : Env) (stars : list Star) : list str :=
  render lower GithubFlavoredMarkdownTable
    (fst (aggregate (sort a) stars)) (snd (aggregate (sort a) stars))
    (today e) (username a) (type a).

(** X6: a run with a repository and no token (none, or an empty one)
    reports [Error: create repository need set --token] and returns at
    once: the stars are not asked for, the store, the host, [sys.stdout]
    and the console are as they were; but a named output file has been
    opened for writing and is empty. *)
Theorem no_token_run (a : Args) (e : Env) (w : World) :
  truthy (repository a) = true ->
  opt_truthy (token a) = false ->
  fst (run a e w) = Returned NoToken
  /\ stderr (snd (run a e w))
     = stderr w ++ [py "Error: create repository need set --token"]
  /\ pkl (snd (run a e w)) = pkl w
  /\ remote (snd (run a e w)) = remote w
  /\ sys_stdout (snd (run a e w)) = sys_stdout w
  /\ console (snd (run a e w)) = console w
  /\ trace (snd (run a e w))
     = trace w
       ++ (if truthy (strip (output a)) then [EvOpenW (strip (output a))]
           else [])
       ++ [EvStderr (py "Error: create repository need set --token")]
  /\ out_file (snd (run a e w))
     = if truthy (strip (output a)) then Some [] else out_file w.
Proof.
  intros Hr Ht. unfold run, starred. rewrite Hr, Ht.
  destruct (truthy (strip (output a))); cbn; rewrite <- ?app_assoc;
    repeat split.
Qed.

(** X7: when the host refuses the request for the stars with a
    [ForbiddenError]: if the library raises it inside
    [gh.starred_by(username)], the run reports
    [Error: talk to Github failed: ...] with the text of the error and
    returns; if the iterator is lazy (as that of github3 is) and raises it
    when the loop of line 119 takes the first star, nothing catches it:
    the run ends with the exception and reports nothing.  Either way
    nothing is echoed, the store and the host are as they were, a named
    output file has been opened for writing and is empty, and a
    publishing run has already bound [sys.stdout] to the buffer. *)
Theorem forbidden_run (a : Args) (e : Env) (w : World) (err : str) :
  starred_by e = inl err ->
  token_ok a ->
  fst (run a e w)
  = (if fetch_is_lazy e then Raised ForbiddenError else Returned Forbidden)
  /\ stderr (snd (run a e w))
     = stderr w
       ++ (if fetch_is_lazy e then []
           else [py "Error: talk to Github failed: " ++ err])
  /\ pkl (snd (run a e w)) = pkl w
  /\ remote (snd (run a e w)) = remote w
  /\ console (snd (run a e w)) = console w
  /\ trace (snd (run a e w))
     = trace w ++ setup_events a
       ++ (if fetch_is_lazy e then []
           else [EvStderr (py "Error: talk to Github failed: " ++ err)])
  /\ out_file (snd (run a e w))
     = (if truthy (strip (output a)) then Some [] else out_file w)
  /\ sys_stdout (snd (run a e w))
     = (if truthy (repository a) then Buffer else sys_stdout w).
Proof.
  intros Hs Ht. unfold run, starred, setup_events, token_ok in *.
  rewrite Hs.
  destruct (fetch_is_lazy e);
    destruct (truthy (strip (output a))); destruct (truthy (repository a));
    try rewrite (Ht eq_refl); cbn; rewrite <- ?app_assoc, ?app_nil_r;
    repeat split.
Qed.

Lemma echo_not_leaving (sink : Sink) (l : list str) :
  forallb (fun ev => negb (leaves_machine ev)) (map (EvEcho sink) l) = true.
Proof. induction l as [|m rest IH]; simpl; auto. Qed.

(** X8: a run without repository never touches the host, never opens the
    browser and never rebinds [sys.stdout], whether the stars are fetched
    or the request is forbidden. *)
Theorem local_run_stays_local (a : Args) (e : Env) (w : World) :
  truthy (repository a) = false ->
  remote (snd (run a e w)) = remote w
  /\ sys_stdout (snd (run a e w)) = sys_stdout w
  /\ exists evs,
       trace (snd (run a e w)) = trace w ++ evs
       /\ forallb (fun ev => negb (leaves_machine ev)) evs = true.
Proof.
  intros Hr. destruct (starred_by e) as [err|stars] eqn:Hs.
  - unfold run, starred. rewrite Hs, Hr.
    destruct (fetch_is_lazy e);
      destruct (truthy (strip (output a))); cbn; rewrite <- ?app_assoc;
      (split; [reflexivity|]); (split; [reflexivity|]);
      first [ eexists; split; [reflexivity|reflexivity]
            | exists []; split; [symmetry; apply app_nil_r | reflexivity] ].
  - unfold run.
    rewrite (run_local_eq lower GithubFlavoredMarkdownTable a e w stars Hs Hr).
    cbn [snd].
    destruct (after_compare_frame a w (snd (grouped stars)))
      as (_ & _ & C3 & _ & C5 & _ & _ & C8).
    match goal with |- context [echo_all ?s ?m ?w1] =>
      destruct (echo_all_frame s m w1) as (_ & _ & E3 & E4 & E5) end.
    cbn zeta in E3, E4, E5. rewrite Hr in C5.
    rewrite E3, E4, E5, C3, C5, C8.
    split; [reflexivity|]. split; [reflexivity|].
    eexists. rewrite <- !app_assoc. split; [reflexivity|].
    rewrite !forallb_app, echo_not_leaving. unfold setup_events. rewrite Hr.
    destruct (truthy (strip (output a)));
      destruct (store_differs w (snd (grouped stars))); reflexivity.
Qed.

(** X9: a run without repository and with an output file, whose document
    UTF-8 can encode, leaves in the file the document and nothing else,
    whatever the file held before: every message followed by a newline,
    without the ANSI escape sequences, which [click.echo] strips for a
    target that is not a terminal; a document without escape character is
    in the file as it is.  The console gets nothing.  (What the encoder
    does with a text it cannot encode is not followed here.) *)
Theorem document_to_file (a : Args) (e : Env) (w : World)
    (stars : list Star) :
  starred_by e = inr stars ->
  truthy (repository a) = false ->
  truthy (strip (output a)) = true ->
  forallb utf8_text (msgs a e stars) = true ->
  fst (run a e w) = Ok tt
  /\ out_file (snd (run a e w)) = Some (echoed_text false (msgs a e stars))
  /\ console (snd (run a e w)) = console w
  /\ (Forall no_escape (msgs a e stars) ->
      out_file (snd (run a e w)) = Some (document_text (msgs a e stars))).
Proof.
  intros Hs Hr Ho _.
  assert (G : fst (run a e w) = Ok tt
              /\ out_file (snd (run a e w))
                 = Some (echoed_text false (msgs a e stars))
              /\ console (snd (run a e w)) = console w).
  { unfold run, msgs.
    rewrite (run_local_eq lower GithubFlavoredMarkdownTable a e w stars Hs Hr).
    cbn [fst snd]. split; [reflexivity|].
    destruct (after_compare_frame a w (snd (grouped stars)))
      as (_ & _ & _ & C4 & _ & C6 & _).
    rewrite Ho in C6.
    match goal with |- context [echo_all ?s ?m ?w1] =>
      pose proof (echo_all_text s m w1) as T end.
    cbn zeta in T. unfold sink_of in *. rewrite Hr, Ho in *.
    assert (T' : console (snd (echo_all ToFile
                   (render lower GithubFlavoredMarkdownTable
                      (fst (aggregate (sort a) stars))
                      (snd (aggregate (sort a) stars))
                      (today e) (username a) (type a))
                   (after_compare a w (snd (grouped stars)))))
                 = console (after_compare a w (snd (grouped stars)))
                 /\ forall c,
                      out_file (after_compare a w (snd (grouped stars)))
                      = Some c ->
                      out_file (snd (echo_all ToFile
                        (render lower GithubFlavoredMarkdownTable
                           (fst (aggregate (sort a) stars))
                           (snd (aggregate (sort a) stars))
                           (today e) (username a) (type a))
                        (after_compare a w (snd (grouped stars)))))
                      = Some (c ++ echoed_text false
                                (render lower GithubFlavoredMarkdownTable
                                   (fst (aggregate (sort a) stars))
                                   (snd (aggregate (sort a) stars))
                                   (today e) (username a) (type a)))).
    { destruct (sys_stdout (after_compare a w (snd (grouped stars))));
        destruct T as (T1 & _ & T3); split; assumption. }
    destruct T' as (T1 & T3).
    rewrite (T3 [] C6), T1, C4. split; reflexivity. }
  destruct G as (G1 & G2 & G3).
  split; [exact G1|]. split; [exact G2|]. split; [exact G3|].
  intros Hn. rewrite G2, (echoed_text_no_escape false _ Hn). reflexivity.
Qed.

(** X10: a run without repository and without output file, whose
    document is ASCII text, appends the document to the console, every
    message followed by a newline, and leaves the file at the output path
    alone; when standard output is not a terminal (a pipe, a
    redirection), [click.echo] strips the ANSI escape sequences from what
    it writes.  (What the encoding of the console does with other
    characters is not followed here.) *)
Theorem document_to_console (a : Args) (e : Env) (w : World)
    (stars : list Star) :
  starred_by e = inr stars ->
  truthy (repository a) = false ->
  truthy (strip (output a)) = false ->
  sys_stdout w = Console ->
  forallb ascii_text (msgs a e stars) = true ->
  fst (run a e w) = Ok tt
  /\ console (snd (run a e w))
     = console w ++ echoed_text (console_isatty w) (msgs a e stars)
  /\ out_file (snd (run a e w)) = out_file w.
Proof.
  intros Hs Hr Ho Hc _. unfold run, msgs.
  rewrite (run_local_eq lower GithubFlavoredMarkdownTable a e w stars Hs Hr).
  cbn [fst snd]. split; [reflexivity|].
  destruct (after_compare_frame a w (snd (grouped stars)))
    as (_ & _ & _ & C4 & C5 & C6 & _).
  rewrite Ho in C6. rewrite Hr, Hc in C5.
  match goal with |- context [echo_all ?s ?m ?w1] =>
    pose proof (echo_all_text s m w1) as T end.
  cbn zeta in T. unfold sink_of in *. rewrite Hr, Ho in *.
  rewrite C5, after_compare_isatty in T. destruct T as (T1 & _ & T3).
  rewrite T1, T3, C4, C6. split; reflexivity.
Qed.

End RunExtras.

Lemma no_token_run_witness :
  (truthy (repository tokenless_args) = true
   /\ opt_truthy (token tokenless_args) = false)
  /\ fst (starred ascii_lower plain_table tokenless_args sample_env
            first_world)
     = Returned NoToken.
Proof.
  split; [split; reflexivity|].
  apply (no_token_run ascii_lower plain_table tokenless_args sample_env
           first_world eq_refl eq_refl).
Defined.

Lemma forbidden_run_witness :
  (starred_by lazy_forbidden_env = inl (py "403 Forbidden")
   /\ token_ok publish_args)
  /\ fst (starred ascii_lower plain_table publish_args lazy_forbidden_env
            first_world)
     = Raised ForbiddenError.
Proof.
  split; [split; [reflexivity | intros _; reflexivity]|].
  apply (forbidden_run ascii_lower plain_table publish_args
           lazy_forbidden_env first_world (py "403 Forbidden") eq_refl).
  intros _. reflexivity.
Defined.

Lemma local_run_stays_local_witness :
  truthy (repository local_args) = false
  /\ remote (snd (starred ascii_lower plain_table local_args sample_env
                    archived_world))
     = remote archived_world.
Proof.
  split; [reflexivity|].
  apply (local_run_stays_local ascii_lower plain_table local_args sample_env
           archived_world eq_refl).
Defined.

Lemma document_to_file_witness :
  (starred_by sample_env = inr sample_stars
   /\ truthy (repository local_args) = false
   /\ truthy (strip (output local_args)) = true
   /\ forallb utf8_text
        (render ascii_lower plain_table
           (fst (aggregate (sort local_args) sample_stars))
           (snd (aggregate (sort local_args) sample_stars))
           (today sample_env) (username local_args) (type local_args))
      = true)
  /\ console (snd (starred ascii_lower plain_table local_args sample_env
                     first_world))
     = console first_world.
Proof.
  split; [repeat split; reflexivity|].
  apply (document_to_file ascii_lower plain_table local_args sample_env
           first_world sample_stars eq_refl eq_refl eq_refl eq_refl).
Defined.

Lemma document_to_console_witness :
  (starred_by sample_env = inr sample_stars
   /\ truthy (repository console_args) = false
   /\ truthy (strip (output console_args)) = false
   /\ sys_stdout first_world = Console
   /\ forallb ascii_text
        (render ascii_lower plain_table
           (fst (aggregate (sort console_args) sample_stars))
           (snd (aggregate (sort console_args) sample_stars))
           (today sample_env) (username console_args) (type console_args))
      = true)
  /\ out_file (snd (starred ascii_lower plain_table console_args sample_env
                      first_world))
     = out_file first_world.
Proof.
  split; [repeat split; reflexivity|].
  apply (document_to_console ascii_lower plain_table console_args sample_env
           first_world sample_stars eq_refl eq_refl eq_refl eq_refl eq_refl).
Defined.

(* ================================================================== *)
(** ** What a publishing run commits *)

Section PublishExtras.
Variable lower : str -> str.
Variable GithubFlavoredMarkdownTable : list (list Cell) -> str.

Let run := starred lower GithubFlavoredMarkdownTable.

Let msgs (a : Args) (e : Env) (stars : list Star) : list str :=
  render lower GithubFlavoredMarkdownTable
    (fst (aggregate (sort a) stars)) (snd (aggregate (sort a) stars))
    (today e) (username a) (type a).

(** A publishing run with a changed snapshot publishes from a world where
    the buffer holds the document and the host is as it was. *)
Lemma run_publish_changed (a : Args) (e : Env) (w : World)
    (stars : list Star) :
  starred_by e = inr stars ->
  truthy (repository a) = true ->
  opt_truthy (token a) = true ->
  pkl w <> Some (snd (grouped stars)) ->
  exists w2,
    run a e w = publish a e w2
    /\ repo_file w2 = echoed_text false (msgs a e stars)
    /\ remote w2 = remote w
    /\ console w2 = console w
    /\ out_file w2
       = (if truthy (strip (output a)) then Some [] else out_file w)
    /\ trace w2
       = trace w ++ setup_events a
         ++ EvPickleDump (snd (grouped stars))
            :: map (EvEcho ToStdout) (msgs a e stars).
Proof.
  intros Hs Hr Ht Hp. unfold run, msgs.
  rewrite (run_publish_eq lower GithubFlavoredMarkdownTable a e w stars
             Hs Hr Ht).
  apply store_differs_true in Hp. rewrite Hp.
  destruct (after_compare_frame a w (snd (grouped stars)))
    as (_ & _ & C3 & C4 & C5 & C6 & C7 & C8).
  rewrite Hr in C5, C7. rewrite Hp in C8.
  unfold sink_of. rewrite Hr.
  match goal with |- context [echo_all ?s ?m ?w1] =>
    pose proof (echo_all_text s m w1) as T;
    destruct (echo_all_frame s m w1) as (_ & _ & E3 & _ & E5);
    exists (snd (echo_all s m w1)) end.
  cbn zeta in T, E3, E5. rewrite C5 in T. destruct T as (T1 & T2 & T3).
  split; [reflexivity|].
  rewrite T1, T2, T3, E3, E5, C3, C4, C6, C7, C8, <- !app_assoc.
  repeat split.
Qed.

(** X11: a publishing run whose snapshot differs from the stored one,
    whose document UTF-8 can encode and
    whose repository is not on the host creates it, with the fixed
    description, and commits the document twice: as [README.md], with the
    message [Add starred <today>] whatever [--message] says, and as
    [Archives/README-<today>.md]; both files hold the text [click.echo]
    left in the buffer: the messages of the document, each followed by a
    newline, without the ANSI escape sequences (the buffer is not a
    terminal), which is the document as it is when it has no escape
    character; with [--launch] the page of the new repository is then
    opened. *)
Theorem publish_creates_repository (a : Args) (e : Env) (w : World)
    (stars : list Star) :
  starred_by e = inr stars ->
  truthy (repository a) = true ->
  opt_truthy (token a) = true ->
  pkl w <> Some (snd (grouped stars)) ->
  remote w = None ->
  forallb utf8_text (msgs a e stars) = true ->
  let text := echoed_text false (msgs a e stars) in
  fst (run a e w) = Ok tt
  /\ (Forall no_escape (msgs a e stars) ->
      text = document_text (msgs a e stars))
  /\ remote (snd (run a e w))
     = Some {| repo_url := created_url e;
               repo_files := [ (README, text);
                               (archive_path (today e), text) ] |}
  /\ trace (snd (run a e w))
     = trace w ++ setup_events a
       ++ EvPickleDump (snd (grouped stars))
          :: map (EvEcho ToStdout) (msgs a e stars)
       ++ [ EvCreateRepository (repository a)
              (py "A curated list of my GitHub stars!");
            EvCreateFile README (py "Add starred " ++ today e) text;
            EvCreateFile (archive_path (today e))
              (py "Archive starred " ++ today e) text ]
       ++ (if launch a then [EvLaunch (created_url e)] else []).
Proof.
  intros Hs Hr Ht Hp Hrem _ text.
  destruct (run_publish_changed a e w stars Hs Hr Ht Hp)
    as (w2 & E & R1 & R2 & _ & _ & R5).
  rewrite E. rewrite Hrem in R2.
  destruct (publish_create a e w2 R2) as (P1 & P2 & P3).
  rewrite P1, P2, P3, R1, R5, <- !app_assoc.
  split; [reflexivity|]. split; [apply echoed_text_no_escape|].
  split; reflexivity.
Qed.

(** X12: a publishing run whose snapshot differs from the stored one and
    whose document UTF-8 can encode, on
    a repository that has a readme and no archive of today, updates the
    readme to the text [click.echo] left in the buffer (the messages of
    the document, each followed by a newline, without the ANSI escape
    sequences; the document as it is when it has no escape character),
    with the message of [--message] or [Add starred <today>] when none is
    given, and adds [Archives/README-<today>.md] with the same text;
    every other file of the repository is as it was. *)
Theorem publish_updates_repository (a : Args) (e : Env) (w : World)
    (stars : list Star) (r : Repo) (old : str) :
  starred_by e = inr stars ->
  truthy (repository a) = true ->
  opt_truthy (token a) = true ->
  pkl w <> Some (snd (grouped stars)) ->
  remote w = Some r ->
  dict_get (archive_path (today e)) (repo_files r) = None ->
  dict_get README (repo_files r) = Some old ->
  forallb utf8_text (msgs a e stars) = true ->
  let text := echoed_text false (msgs a e stars) in
  fst (run a e w) = Ok tt
  /\ (Forall no_escape (msgs a e stars) ->
      text = document_text (msgs a e stars))
  /\ (exists files,
        remote (snd (run a e w))
        = Some {| repo_url := repo_url r; repo_files := files |}
        /\ forall k,
             dict_get k files
             = if str_eqb k README then Some text
               else if str_eqb k (archive_path (today e)) then Some text
               else dict_get k (repo_files r))
  /\ trace (snd (run a e w))
     = trace w ++ setup_events a
       ++ EvPickleDump (snd (grouped stars))
          :: map (EvEcho ToStdout) (msgs a e stars)
       ++ [ EvReadmeUpdate (commit_message a e) text;
            EvCreateFile (archive_path (today e))
              (py "Archive starred " ++ today e) text ]
       ++ (if launch a then [EvLaunch (repo_url r)] else []).
Proof.
  intros Hs Hr Ht Hp Hrem Ha Hreadme _ text.
  destruct (run_publish_changed a e w stars Hs Hr Ht Hp)
    as (w2 & E & R1 & R2 & _ & _ & R5).
  rewrite E. rewrite Hrem in R2.
  destruct (publish_update a e w2 r old R2 Ha Hreadme) as (P1 & P2 & P3).
  split; [exact P1|]. split; [apply echoed_text_no_escape|]. split.
  - eexists. split; [exact P2|]. intros k.
    rewrite dict_get_app, dict_get_set, R1. fold text.
    destruct (str_eqb k README); [reflexivity|].
    cbn [dict_get].
    destruct (str_eqb k (archive_path (today e))) eqn:Ek.
    + apply str_eqb_eq in Ek. subst k. rewrite Ha. reflexivity.
    + destruct (dict_get k (repo_files r)); reflexivity.
  - rewrite P3, R1, R5, <- !app_assoc. reflexivity.
Qed.

(** X20: a publishing run (repository and token given) writes nothing
    to the console and nothing into the output file, however it ends: the
    console text is as it was, and the file at a named output path is
    empty, having been opened for writing. *)
Theorem publishing_run_writes_no_document (a : Args) (e : Env) (w : World) :
  truthy (repository a) = true ->
  opt_truthy (token a) = true ->
  console (snd (run a e w)) = console w
  /\ out_file (snd (run a e w))
     = if truthy (strip (output a)) then Some [] else out_file w.
Proof.
  intros Hr Ht. destruct (starred_by e) as [err|stars] eqn:Hs.
  - unfold run, starred. rewrite Hs, Hr, Ht.
    destruct (fetch_is_lazy e);
      destruct (truthy (strip (output a))); cbn; split; reflexivity.
  - destruct (store_differs w (snd (grouped stars))) eqn:D.
    + apply store_differs_true in D.
      destruct (run_publish_changed a e w stars Hs Hr Ht D)
        as (w2 & E & _ & _ & R3 & R4 & _).
      rewrite E. destruct (local_publish a e w2) as (L1 & L2 & _).
      rewrite L1, L2, R3, R4. split; reflexivity.
    + unfold run.
      rewrite (run_publish_eq lower GithubFlavoredMarkdownTable a e w stars
                 Hs Hr Ht), D.
      unfold after_setup. rewrite Hr.
      destruct (truthy (strip (output a))); cbn; split; reflexivity.
Qed.

End PublishExtras.

Lemma publish_creates_repository_witness :
  (starred_by sample_env = inr sample_stars
   /\ truthy (repository publish_args) = true
   /\ opt_truthy (token publish_args) = true
   /\ pkl first_world <> Some (snd (grouped sample_stars))
   /\ remote first_world = None
   /\ forallb utf8_text
        (render ascii_lower plain_table
           (fst (aggregate (sort publish_args) sample_stars))
           (snd (aggregate (sort publish_args) sample_stars))
           (today sample_env) (username publish_args) (type publish_args))
      = true)
  /\ fst (starred ascii_lower plain_table publish_args sample_env
            first_world)
     = Ok tt.
Proof.
  assert (Hp : pkl first_world <> Some (snd (grouped sample_stars)))
    by discriminate.
  split; [repeat split; try reflexivity; exact Hp|].
  apply (publish_creates_repository ascii_lower plain_table publish_args
           sample_env first_world sample_stars eq_refl eq_refl eq_refl Hp
           eq_refl eq_refl).
Defined.

Lemma publish_updates_repository_witness :
  (starred_by sample_env = inr sample_stars
   /\ truthy (repository publish_args) = true
   /\ opt_truthy (token publish_args) = true
   /\ pkl yesterday_world <> Some (snd (grouped sample_stars))
   /\ remote yesterday_world = Some yesterday_repo
   /\ dict_get (archive_path (today sample_env)) (repo_files yesterday_repo)
      = None
   /\ dict_get README (repo_files yesterday_repo)
      = Some (py "# Awesome Stars")
   /\ forallb utf8_text
        (render ascii_lower plain_table
           (fst (aggregate (sort publish_args) sample_stars))
           (snd (aggregate (sort publish_args) sample_stars))
           (today sample_env) (username publish_args) (type publish_args))
      = true)
  /\ fst (starred ascii_lower plain_table publish_args sample_env
            yesterday_world)
     = Ok tt.
Proof.
  assert (Hp : pkl yesterday_world <> Some (snd (grouped sample_stars)))
    by (vm_compute; discriminate).
  split; [repeat split; try reflexivity; exact Hp|].
  apply (publish_updates_repository ascii_lower plain_table publish_args
           sample_env yesterday_world sample_stars yesterday_repo
           (py "# Awesome Stars") eq_refl eq_refl eq_refl Hp eq_refl eq_refl
           eq_refl eq_refl).
Defined.

Lemma publishing_run_writes_no_document_witness :
  (truthy (repository publish_args) = true
   /\ opt_truthy (token publish_args) = true)
  /\ console (snd (starred ascii_lower plain_table publish_args sample_env
                     yesterday_world))
     = console yesterday_world.
Proof.
  split; [split; reflexivity|].
  apply (publishing_run_writes_no_document ascii_lower plain_table
           publish_args sample_env yesterday_world eq_refl eq_refl).
Defined.

Lemma second_run_writes_no_store_witness :
  (starred_by sample_env = inr sample_stars /\ token_ok local_args)
  /\ pkl (snd (starred ascii_lower plain_table local_args sample_env
                 (snd (starred ascii_lower plain_table local_args sample_env
                         first_world))))
     = pkl (snd (starred ascii_lower plain_table local_args sample_env
                   first_world)).
Proof.
  assert (Ht : token_ok local_args) by (intros H; discriminate H).
  split; [split; [reflexivity | exact Ht]|].
  apply (second_run_writes_no_store ascii_lower plain_table local_args
           sample_env first_world sample_stars eq_refl Ht).
Defined.

Lemma store_after_run_witness :
  (starred_by sample_env = inr sample_stars /\ token_ok publish_args)
  /\ pkl (snd (starred ascii_lower plain_table publish_args sample_env
                 yesterday_world))
     = Some (snd (grouped sample_stars)).
Proof.
  assert (Ht : token_ok publish_args) by (intros _; reflexivity).
  split; [split; [reflexivity | exact Ht]|].
  apply (store_after_run ascii_lower plain_table publish_args sample_env
           yesterday_world sample_stars eq_refl Ht).
Defined.
